(** * vscan-anti-csrf-token-checker: a shallow embedding of [main.py]

    The program validates a URL, fetches the page, extracts its forms with
    BeautifulSoup and reports, per form, whether a hidden input whose name
    looks like an anti-CSRF token is present.

    Python values are modelled as follows.
    - [str] is a list of Unicode code points ([pystr]).
    - A BeautifulSoup [Tag] is a tree whose attribute dictionary is a
      finite map from attribute names to string values.
    - Exceptions, [sys.exit] and [logging] calls are explicit: a computation
      yields an [outcome] together with the log records it emitted. *)

From Stdlib Require Import ZArith NArith Ascii String List Lia.
From stdpp Require Import base decidable option list sorting gmap.
Import ListNotations.
Local Open Scope Z_scope.
Set Warnings "-register-all".

(** ** Python strings *)

Module PyStr.

(** A string is the list of its code points. *)
Definition pystr := list N.

Definition py (s : string) : pystr := N_of_ascii <$> list_ascii_of_string s.
Arguments py s%_string.

Definition chr (a : ascii) : N := N_of_ascii a.
Arguments chr a%_char.

(** Truthiness of a string: [bool(s)]. *)
Definition truthy (s : pystr) : bool :=
  match s with [] => false | _ => true end.

Definition str_eqb (a b : pystr) : bool := bool_decide (a = b).

(** [c in s] for a one-character [c]. *)
Definition contains (c : N) (s : pystr) : bool := existsb (N.eqb c) s.

(** [s.find(c)] and [s.find(c, start)]: index of the first occurrence. *)
Fixpoint find_from (c : N) (s : pystr) (i : nat) : option nat :=
  match s with
  | [] => None
  | x :: r => if N.eqb x c then Some i else find_from c r (S i)
  end.

Definition find (c : N) (s : pystr) : option nat := find_from c s 0.

Definition find_at (c : N) (s : pystr) (start : nat) : option nat :=
  find_from c (drop start s) start.

(** [s.rfind(c)]: index of the last occurrence. *)
Fixpoint rfind_from (c : N) (s : pystr) (i : nat) (acc : option nat)
  : option nat :=
  match s with
  | [] => acc
  | x :: r => rfind_from c r (S i) (if N.eqb x c then Some i else acc)
  end.

Definition rfind (c : N) (s : pystr) : option nat := rfind_from c s 0 None.

(** [s.replace(c, "")]. *)
Definition remove_char (c : N) (s : pystr) : pystr :=
  List.filter (fun x => negb (N.eqb x c)) s.

(** [s.lstrip(chars)], [s.rstrip(chars)] and [s.strip(chars)]. *)
Fixpoint lstrip (chars : pystr) (s : pystr) : pystr :=
  match s with
  | [] => []
  | x :: r => if contains x chars then lstrip chars r else s
  end.

Definition rstrip (chars : pystr) (s : pystr) : pystr :=
  rev (lstrip chars (rev s)).

Definition strip (chars : pystr) (s : pystr) : pystr :=
  rstrip chars (lstrip chars s).

(** [s.split(c)] for a one-character separator: never empty. *)
Fixpoint split (c : N) (s : pystr) : list pystr :=
  match s with
  | [] => [[]]
  | x :: r =>
      if N.eqb x c then [] :: split c r
      else match split c r with
           | [] => [[x]]
           | w :: ws => (x :: w) :: ws
           end
  end.

(** [s.split(c, 1)] when [c in s]: the text before and after the first [c]. *)
Fixpoint split_once (c : N) (s : pystr) : pystr * pystr :=
  match s with
  | [] => ([], [])
  | x :: r =>
      if N.eqb x c then ([], r)
      else let '(a, b) := split_once c r in (x :: a, b)
  end.

(** [c.join(parts)]. *)
Fixpoint join (c : N) (parts : list pystr) : pystr :=
  match parts with
  | [] => []
  | [p] => p
  | p :: ps => p ++ c :: join c ps
  end.

Definition is_ascii_upper (c : N) : bool := (65 <=? c)%N && (c <=? 90)%N.
Definition is_ascii_lower (c : N) : bool := (97 <=? c)%N && (c <=? 122)%N.
Definition is_ascii_digit (c : N) : bool := (48 <=? c)%N && (c <=? 57)%N.
Definition is_ascii_alpha (c : N) : bool :=
  is_ascii_upper c || is_ascii_lower c.
Definition is_ascii (c : N) : bool := (c <? 128)%N.

Definition ascii_lower (c : N) : N :=
  if is_ascii_upper c then (c + 32)%N else c.
Definition ascii_upper (c : N) : N :=
  if is_ascii_lower c then (c - 32)%N else c.

Fixpoint take_while (f : N -> bool) (s : pystr) : pystr :=
  match s with
  | x :: r => if f x then x :: take_while f r else []
  | [] => []
  end.

Fixpoint drop_while (f : N -> bool) (s : pystr) : pystr :=
  match s with
  | x :: r => if f x then drop_while f r else s
  | [] => []
  end.

(** [s.isascii()]. *)
Definition isascii (s : pystr) : bool := forallb is_ascii s.

End PyStr.
Import PyStr.

(** ** Exceptions, exit and logging *)

Inductive ExnClass :=
  | ConnectionError   (* requests.exceptions: DNS failure, refused *)
  | ReadTimeout       (* requests.exceptions: no answer within 10 s *)
  | HTTPError         (* raised by raise_for_status *)
  | OtherRequestException
  | ValueError
  | OtherException.

(** [isinstance(e, requests.exceptions.RequestException)]. *)
Definition is_RequestException (c : ExnClass) : bool :=
  match c with
  | ConnectionError | ReadTimeout | HTTPError | OtherRequestException => true
  | ValueError | OtherException => false
  end.

Record Exn := mkExn { exn_class : ExnClass; exn_msg : string }.

(** How a Python call ends: it returns, raises an [Exception], or the
    process is asked to stop by [sys.exit]. *)
Inductive outcome (A : Type) :=
  | Returns (a : A)
  | Raises (e : Exn)
  | Exits (code : Z).
Arguments Returns {A} a.
Arguments Raises {A} e.
Arguments Exits {A} code.

Inductive Level := DEBUG | INFO | WARNING | ERROR.

(** The messages [main.py] hands to [logging], one constructor per format
    string, carrying the interpolated values. *)
Inductive LogMsg :=
  | ErrorFetchingURL (e : Exn)
  | ErrorParsingHTML (e : Exn)
  | ErrorAnalyzingForm (e : Exn)
  | InvalidURLProvided
  | AnalyzingURL (url : pystr)
  | NoFormsFound
  | AnalyzingForm (i : nat)
  | MethodIs (m : pystr)
  | ActionIs (a : pystr)
  | TokenPresentYes (name : option pystr)
  | TokenPresentNo
  | PotentialVulnerability
  | FailedToAnalyzeForm (i : nat).

Definition LogRecord : Type := Level * LogMsg.

(** A computation of [main.py]: an outcome and the records logged. *)
Definition Py (A : Type) : Type := outcome A * list LogRecord.

Definition ret {A} (a : A) : Py A := (Returns a, []).

Definition bind {A B} (m : Py A) (f : A -> Py B) : Py B :=
  match m with
  | (Returns a, l1) => let '(o, l2) := f a in (o, l1 ++ l2)
  | (Raises e, l1) => (Raises e, l1)
  | (Exits c, l1) => (Exits c, l1)
  end.

Definition log (lvl : Level) (m : LogMsg) : Py unit := (Returns tt, [(lvl, m)]).

Definition sys_exit {A} (code : Z) : Py A := (Exits code, []).

(** [try: m  except Exception as e: h e]. [SystemExit] is not an
    [Exception] and passes through. *)
Definition try_except {A} (m : Py A) (h : Exn -> Py A) : Py A :=
  match m with
  | (Raises e, l1) => let '(o, l2) := h e in (o, l1 ++ l2)
  | r => r
  end.

(** [try: m  except: h]: a bare [except] also catches [SystemExit]. *)
Definition try_except_all {A} (m : Py A) (h : Py A) : Py A :=
  match m with
  | (Returns a, l1) => (Returns a, l1)
  | (_, l1) => let '(o, l2) := h in (o, l1 ++ l2)
  end.

Declare Scope py_scope.
Delimit Scope py_scope with py.
Notation "'let!' x ':=' m 'in' k" := (bind m (fun x => k))
  (at level 10, x name, m at level 100, k at level 200) : py_scope.
Notation "'run!' m 'in' k" := (bind m (fun _ => k))
  (at level 10, m at level 100, k at level 200) : py_scope.

(** A library call: it returns a value or raises an [Exception]. *)
Inductive result (A : Type) :=
  | Ok (a : A)
  | Err (e : Exn).
Arguments Ok {A} a.
Arguments Err {A} e.

Definition rbind {A B} (r : result A) (f : A -> result B) : result B :=
  match r with
  | Ok a => f a
  | Err e => Err e
  end.

Definition lift {A} (r : result A) : Py A :=
  match r with
  | Ok a => (Returns a, [])
  | Err e => (Raises e, [])
  end.

(** ** BeautifulSoup trees *)

Inductive PageElement :=
  | NavigableString (text : pystr)
  | Tag (name : pystr) (attrs : gmap pystr pystr) (contents : list PageElement).

Definition tag_name (t : PageElement) : option pystr :=
  match t with Tag n _ _ => Some n | NavigableString _ => None end.

(** [tag.get(key)]: [None] when the attribute is absent. *)
Definition tag_get (t : PageElement) (key : pystr) : option pystr :=
  match t with
  | Tag _ a _ => a !! key
  | NavigableString _ => None
  end.

(** [tag.get(key, default)]. *)
Definition tag_get_default (t : PageElement) (key dflt : pystr) : pystr :=
  default dflt (tag_get t key).

(** ** What the run depends on but the program does not define

    The network, the HTML parser and three pieces of the Python runtime
    (Unicode upper-casing beyond ASCII, NFKC normalisation and
    [ipaddress.ip_address]) are taken as given. Everything below is stated
    for an arbitrary [Runtime]. *)

Inductive IPAddress := IPv4Address | IPv6Address.

Record Response := mkResponse { status_code : Z; content : list N }.

Class Runtime := {
  (** [requests.get(url, timeout=10)]: a response, or an exception. *)
  requests_get : pystr -> result Response;
  (** [BeautifulSoup(content, 'html.parser')]: the document root. *)
  BeautifulSoup : list N -> result PageElement;
  (** The full upper-case mapping of one non-ASCII code point. *)
  unicode_upper : N -> pystr;
  (** [unicodedata.normalize('NFKC', s)]. *)
  unicodedata_normalize_NFKC : pystr -> pystr;
  (** [ipaddress.ip_address(s)]: raises [ValueError] on a malformed address. *)
  ipaddress_ip_address : pystr -> result IPAddress
}.

(** [s.upper()]: ASCII letters are mapped directly, other code points
    through the runtime's table. *)
Definition upper `{Runtime} (s : pystr) : pystr :=
  flat_map (fun c => if is_ascii c then [ascii_upper c] else unicode_upper c) s.

(** ** urllib.parse (CPython 3.12, [str] arguments) *)

Module urllib_parse.

Definition uses_relative : list pystr :=
  py <$> [""; "ftp"; "http"; "gopher"; "nntp"; "imap";
          "wais"; "file"; "https"; "shttp"; "mms";
          "prospero"; "rtsp"; "rtspu"; "sftp";
          "svn"; "svn+ssh"; "ws"; "wss"]%string.

Definition uses_netloc : list pystr :=
  py <$> [""; "ftp"; "http"; "gopher"; "nntp"; "telnet";
          "imap"; "wais"; "file"; "mms"; "https"; "shttp";
          "snews"; "prospero"; "rtsp"; "rtspu"; "rsync";
          "svn"; "svn+ssh"; "sftp"; "nfs"; "git"; "git+ssh";
          "ws"; "wss"]%string.

Definition uses_params : list pystr :=
  py <$> [""; "ftp"; "hdl"; "prospero"; "http"; "imap";
          "https"; "shttp"; "rtsp"; "rtspu"; "sip"; "sips";
          "mms"; "sftp"; "tel"]%string.

Definition scheme_chars : pystr :=
  py ("abcdefghijklmnopqrstuvwxyz" ++
      "ABCDEFGHIJKLMNOPQRSTUVWXYZ" ++
      "0123456789" ++
      "+-.").

(** The code points 0x00 .. 0x1f and the space. *)
Definition _WHATWG_C0_CONTROL_OR_SPACE : pystr := N.of_nat <$> seq 0 33.

(** Tab, carriage return and line feed. *)
Definition _UNSAFE_URL_BYTES_TO_REMOVE : pystr := [9; 13; 10]%N.

Definition str_in (s : pystr) (l : list pystr) : bool := bool_decide (s ∈ l).

Record SplitResult := mkSplit {
  s_scheme : pystr; s_netloc : pystr; s_path : pystr;
  s_query : pystr; s_fragment : pystr }.

Record ParseResult := mkParse {
  scheme : pystr; netloc : pystr; path : pystr;
  params : pystr; query : pystr; fragment : pystr }.

Definition value_error {A} (msg : string) : result A :=
  Err (mkExn ValueError msg).

(** [for b in _UNSAFE_URL_BYTES_TO_REMOVE: s = s.replace(b, "")]. *)
Definition remove_unsafe (s : pystr) : pystr :=
  fold_left (fun acc b => remove_char b acc) _UNSAFE_URL_BYTES_TO_REMOVE s.

(** The scheme test of [urlsplit]: the text before the first colon is a
    scheme when it is non-empty, starts with an ASCII letter and consists
    of [scheme_chars]; it is then lower-cased and cut off. *)
Definition split_scheme (url : pystr) : option (pystr * pystr) :=
  match find (chr ":") url with
  | Some i =>
      if Nat.ltb 0 i
         && match url with c :: _ => is_ascii c && is_ascii_alpha c | [] => false end
         && forallb (fun c => contains c scheme_chars) (take i url)
      then Some (ascii_lower <$> take i url, drop (S i) url)
      else None
  | None => None
  end.

Definition _splitnetloc (url : pystr) (start : nat) : pystr * pystr :=
  let delim :=
    fold_left
      (fun delim c =>
         match find_at c url start with
         | Some wdelim => Nat.min delim wdelim
         | None => delim
         end)
      (py "/?#") (length url) in
  (drop start (take delim url), drop delim url).

Definition is_hex (c : N) : bool :=
  is_ascii_digit c
  || ((97 <=? c)%N && (c <=? 102)%N)
  || ((65 <=? c)%N && (c <=? 70)%N).

(** [re.match(r"\Av[a-fA-F0-9]+\..+\Z", hostname)] for a [hostname] that
    starts with [v]. *)
Definition is_ipvfuture (hostname : pystr) : bool :=
  match hostname with
  | v :: r =>
      N.eqb v (chr "v")
      && let digits := take_while is_hex r in
         let rest := drop_while is_hex r in
         truthy digits
         && match rest with
            | dot :: tail =>
                N.eqb dot (chr ".") && truthy tail
                && forallb (fun c => negb (N.eqb c 10)) tail
            | [] => false
            end
  | [] => false
  end.

Section with_runtime.
Context `{Runtime}.

Definition _check_bracketed_host (hostname : pystr) : result unit :=
  match hostname with
  | 118%N :: _ =>
      if is_ipvfuture hostname then Ok tt
      else value_error "IPvFuture address is invalid"
  | _ =>
      rbind (ipaddress_ip_address hostname) (fun ip =>
        match ip with
        | IPv4Address => value_error "An IPv4 address cannot be in brackets"
        | IPv6Address => Ok tt
        end)
  end.

Definition _checknetloc (netloc : pystr) : result unit :=
  if negb (truthy netloc) || isascii netloc then Ok tt
  else
    let n := fold_left (fun acc c => remove_char c acc) (py "@:#?") netloc in
    let netloc2 := unicodedata_normalize_NFKC n in
    if str_eqb n netloc2 then Ok tt
    else if existsb (fun c => contains c netloc2) (py "/?#@:")
         then value_error "netloc contains invalid characters under NFKC normalization"
         else Ok tt.

Definition urlsplit (url scheme : pystr) : result SplitResult :=
  let url := lstrip _WHATWG_C0_CONTROL_OR_SPACE url in
  let scheme := strip _WHATWG_C0_CONTROL_OR_SPACE scheme in
  let url := remove_unsafe url in
  let scheme := remove_unsafe scheme in
  let '(scheme, url) :=
    match split_scheme url with
    | Some (s, rest) => (s, rest)
    | None => (scheme, url)
    end in
  rbind
    (if str_eqb (take 2 url) (py "//") then
       let '(netloc, url) := _splitnetloc url 2 in
       let lb := contains (chr "[") netloc in
       let rb := contains (chr "]") netloc in
       if (lb && negb rb) || (rb && negb lb)
       then value_error "Invalid IPv6 URL"
       else
         rbind
           (if lb && rb then
              let bracketed_host :=
                fst (split_once (chr "]") (snd (split_once (chr "[") netloc))) in
              _check_bracketed_host bracketed_host
            else Ok tt)
           (fun _ => Ok (netloc, url))
     else Ok ([], url))
    (fun '(netloc, url) =>
       let '(url, fragment) :=
         if contains (chr "#") url then split_once (chr "#") url else (url, []) in
       let '(url, query) :=
         if contains (chr "?") url then split_once (chr "?") url else (url, []) in
       rbind (_checknetloc netloc) (fun _ =>
         Ok (mkSplit scheme netloc url query fragment))).

Definition _splitparams (url : pystr) : pystr * pystr :=
  if contains (chr "/") url then
    match find_at (chr ";") url (default 0%nat (rfind (chr "/") url)) with
    | Some i => (take i url, drop (S i) url)
    | None => (url, [])
    end
  else
    match find (chr ";") url with
    | Some i => (take i url, drop (S i) url)
    | None => (take (length url - 1) url, url)
    end.

Definition urlparse (url scheme : pystr) : result ParseResult :=
  rbind (urlsplit url scheme) (fun r =>
    let '(url, params) :=
      if str_in (s_scheme r) uses_params && contains (chr ";") (s_path r)
      then _splitparams (s_path r)
      else (s_path r, []) in
    Ok (mkParse (s_scheme r) (s_netloc r) url params
                     (s_query r) (s_fragment r))).

End with_runtime.

Definition urlunsplit (scheme netloc url query fragment : pystr) : pystr :=
  let url :=
    if truthy netloc
       || (truthy scheme && str_in scheme uses_netloc
           && negb (str_eqb (take 2 url) (py "//")))
    then
      let url :=
        if truthy url && negb (str_eqb (take 1 url) (py "/"))
        then chr "/" :: url else url in
      py "//" ++ netloc ++ url
    else url in
  let url := if truthy scheme then scheme ++ chr ":" :: url else url in
  let url := if truthy query then url ++ chr "?" :: query else url in
  let url := if truthy fragment then url ++ chr "#" :: fragment else url in
  url.

Definition urlunparse (p : ParseResult) : pystr :=
  let url :=
    if truthy (params p) then path p ++ chr ";" :: params p else path p in
  urlunsplit (scheme p) (netloc p) url (query p) (fragment p).

(** [segments[1:-1] = filter(None, segments[1:-1])]. *)
Definition drop_empty_inner (segments : list pystr) : list pystr :=
  match segments with
  | [] => []
  | [x] => [x]
  | x :: rest => x :: List.filter truthy (removelast rest) ++ [List.last rest []]
  end.

(** The loop of [urljoin] over the path segments. *)
Fixpoint resolve_segments (segments resolved_path : list pystr) : list pystr :=
  match segments with
  | [] => resolved_path
  | seg :: r =>
      if str_eqb seg (py "..") then resolve_segments r (removelast resolved_path)
      else if str_eqb seg (py ".") then resolve_segments r resolved_path
      else resolve_segments r (resolved_path ++ [seg])
  end.

Definition urljoin `{Runtime} (base url : pystr) : result pystr :=
  if negb (truthy base) then Ok url
  else if negb (truthy url) then Ok base
  else
    rbind (urlparse base []) (fun b =>
    rbind (urlparse url (scheme b)) (fun u =>
      if negb (str_eqb (scheme u) (scheme b))
         || negb (str_in (scheme u) uses_relative)
      then Ok url
      else
        let with_netloc (k : pystr -> result pystr) : result pystr :=
          if str_in (scheme u) uses_netloc then
            if truthy (netloc u) then Ok (urlunparse u)
            else k (netloc b)
          else k (netloc u) in
        with_netloc (fun netloc' =>
          if negb (truthy (path u)) && negb (truthy (params u)) then
            let query' := if negb (truthy (query u)) then query b else query u in
            Ok (urlunparse (mkParse (scheme u) netloc' (path b) (params b)
                                         query' (fragment u)))
          else
            let base_parts := split (chr "/") (path b) in
            let base_parts :=
              if negb (str_eqb (List.last base_parts []) [])
              then removelast base_parts else base_parts in
            let segments :=
              if str_eqb (take 1 (path u)) (py "/")
              then split (chr "/") (path u)
              else drop_empty_inner (base_parts ++ split (chr "/") (path u)) in
            let resolved_path := resolve_segments segments [] in
            let resolved_path :=
              if str_in (List.last segments []) [py "."; py ".."]
              then resolved_path ++ [[]] else resolved_path in
            let joined := join (chr "/") resolved_path in
            let path' := if truthy joined then joined else py "/" in
            Ok (urlunparse (mkParse (scheme u) netloc' path' (params u)
                                         (query u) (fragment u)))))).

End urllib_parse.

(** ** re.search(r"(csrf|token|xsrf|authenticity)", name, re.IGNORECASE) *)

Module re.

(** The alternatives of the pattern, in the order they are tried. *)
Definition alternatives : list pystr :=
  py <$> ["csrf"; "token"; "xsrf"; "authenticity"]%string.

(** Whether text character [c] matches the pattern letter [p] (an ASCII
    lower-case letter) under [re.IGNORECASE] on [str]: the letter, its
    capital, and the non-ASCII code points that case-fold onto it
    (U+0130 and U+0131 for [i], U+017F for [s], U+212A for [k]). *)
Definition ignorecase_match (p c : N) : bool :=
  N.eqb c p
  || N.eqb c (p - 32)
  || (N.eqb p (chr "i") && (N.eqb c 304 || N.eqb c 305))
  || (N.eqb p (chr "s") && N.eqb c 383)
  || (N.eqb p (chr "k") && N.eqb c 8490).

(** A literal alternative matched at the start of [text]. *)
Fixpoint match_here (pat text : pystr) : bool :=
  match pat, text with
  | [], _ => true
  | _ :: _, [] => false
  | p :: pat', c :: text' => ignorecase_match p c && match_here pat' text'
  end.

(** The search: every start position from left to right, every
    alternative at that position. Only whether a match exists is used. *)
Fixpoint search (text : pystr) : bool :=
  existsb (fun alt => match_here alt text) alternatives
  || match text with
     | [] => false
     | _ :: text' => search text'
     end.

End re.

(** ** main.py *)

(** [tag.find_all(name)]: the descendant tags called [name], in document
    order. *)
Fixpoint descendants (t : PageElement) : list PageElement :=
  match t with
  | NavigableString _ => []
  | Tag _ _ cs => flat_map (fun c => c :: descendants c) cs
  end.

Definition find_all (t : PageElement) (name : pystr) : list PageElement :=
  List.filter (fun e => bool_decide (tag_name e = Some name)) (descendants t).

(** The dictionary [analyze_form] returns. *)
Record FormAnalysis := mkFormAnalysis {
  has_csrf_token : bool;
  token_name : option pystr;
  method : pystr;
  action : pystr }.

(** The command line after [argparse]. [--verbose] lowers the threshold of
    the root logger to DEBUG; every record [main.py] itself emits is at INFO
    or above, so the flag does not change the records modelled here. *)
Record Args := mkArgs { arg_url : pystr; arg_verbose : bool }.

(** [response.raise_for_status()]. *)
Definition raise_for_status (r : Response) : result unit :=
  if (400 <=? status_code r) && (status_code r <? 500)
  then Err (mkExn HTTPError "Client Error")
  else if (500 <=? status_code r) && (status_code r <? 600)
  then Err (mkExn HTTPError "Server Error")
  else Ok tt.

(** The [for input_field in ...] loop of [analyze_form]: the value of
    [csrf_token_field] when the loop ends, by [break] or by exhaustion. *)
Fixpoint scan_inputs (inputs : list PageElement) : option pystr :=
  match inputs with
  | [] => None
  | input_field :: rest =>
      if bool_decide (tag_get input_field (py "type") = Some (py "hidden"))
      then
        match tag_get input_field (py "name") with
        | Some name =>
            if truthy name && re.search name
            then Some name
            else scan_inputs rest
        | None => scan_inputs rest
        end
      else scan_inputs rest
  end.

Section program.
Context `{Runtime}.
Local Open Scope py_scope.

Definition validate_url (url : pystr) : Py bool :=
  try_except_all
    (let! result := lift (urllib_parse.urlparse url []) in
     ret (truthy (urllib_parse.scheme result)
          && truthy (urllib_parse.netloc result)))
    (ret false).

Definition get_forms (url : pystr) : Py (list PageElement) :=
  try_except
    (let! response := lift (requests_get url) in
     run! lift (raise_for_status response) in
     let! soup := lift (BeautifulSoup (content response)) in
     let forms := find_all soup (py "form") in
     ret forms)
    (fun e =>
       if is_RequestException (exn_class e)
       then run! log ERROR (ErrorFetchingURL e) in ret []
       else run! log ERROR (ErrorParsingHTML e) in ret []).

Definition analyze_form (form : PageElement) (url : pystr)
  : Py (option FormAnalysis) :=
  try_except
    (let method := upper (tag_get_default form (py "method") (py "GET")) in
     let action := tag_get_default form (py "action") url in
     let! action := lift (urllib_parse.urljoin url action) in
     let csrf_token_field := scan_inputs (find_all form (py "input")) in
     let has_csrf_token := bool_decide (csrf_token_field <> None) in
     ret (Some (mkFormAnalysis has_csrf_token csrf_token_field method action)))
    (fun e => run! log ERROR (ErrorAnalyzingForm e) in ret None).

(** The body of the loop of [main] for form number [i] (counted from 0). *)
Definition report_form (url : pystr) (i : nat) (form : PageElement) : Py unit :=
  run! log INFO (AnalyzingForm (i + 1)) in
  let! analysis_result := analyze_form form url in
  match analysis_result with
  | Some r =>
      run! log INFO (MethodIs (method r)) in
      run! log INFO (ActionIs (action r)) in
      if has_csrf_token r
      then log INFO (TokenPresentYes (token_name r))
      else run! log WARNING TokenPresentNo in
           log WARNING PotentialVulnerability
  | None => log ERROR (FailedToAnalyzeForm (i + 1))
  end.

(** [for i, form in enumerate(forms): ...], from index [i] on. *)
Fixpoint report_forms (url : pystr) (i : nat) (forms : list PageElement)
  : Py unit :=
  match forms with
  | [] => ret tt
  | form :: rest =>
      run! report_form url i form in report_forms url (S i) rest
  end.

Definition main (args : Args) : Py unit :=
  let url := arg_url args in
  let! valid := validate_url url in
  if negb valid then
    run! log ERROR InvalidURLProvided in sys_exit 1
  else
    run! log INFO (AnalyzingURL url) in
    let! forms := get_forms url in
    match forms with
    | [] => run! log INFO NoFormsFound in sys_exit 0
    | _ => report_forms url 0 forms
    end.

End program.

(** The status the process ends with: 0 when [main] returns, the argument
    of [sys.exit] when it was called, 1 on an uncaught exception. *)
Definition exit_code {A} (r : Py A) : Z :=
  match fst r with
  | Returns _ => 0
  | Exits c => c
  | Raises _ => 1
  end.

(** ** Vocabulary of the statements *)

(** The argument [analyze_form] hands to [urljoin], and the dictionary it
    builds once the action is resolved to [a]. *)
Definition form_action_arg (form : PageElement) (url : pystr) : pystr :=
  tag_get_default form (py "action") url.

Definition form_result `{Runtime} (form : PageElement) (a : pystr)
  : FormAnalysis :=
  let field := scan_inputs (find_all form (py "input")) in
  mkFormAnalysis (bool_decide (field <> None)) field
    (upper (tag_get_default form (py "method") (py "GET"))) a.

(** An input that counts as a token field: its [type] is exactly
    ["hidden"] and it has a [name] the pattern matches somewhere. *)
Definition looks_like_token (inp : PageElement) : bool :=
  bool_decide (tag_get inp (py "type") = Some (py "hidden"))
  && match tag_get inp (py "name") with
     | Some name => re.search name
     | None => false
     end.

(** [kw] occurs in [name] up to the case-insensitivity of the pattern. *)
Definition ci_occurs (kw name : pystr) : Prop :=
  exists pre mid post,
    name = pre ++ mid ++ post
    /\ Forall2 (fun p c => re.ignorecase_match p c = true) kw mid.

(** The request methods of HTTP (RFC 9110 and PATCH), upper-cased. *)
Definition http_methods : list pystr :=
  py <$> ["GET"; "HEAD"; "POST"; "PUT"; "DELETE"; "CONNECT"; "OPTIONS";
          "TRACE"; "PATCH"]%string.

(** The text [urlsplit] looks for a scheme in: leading control characters
    and spaces stripped, tabs and line breaks removed. *)
Definition cleaned (url : pystr) : pystr :=
  urllib_parse.remove_unsafe
    (lstrip urllib_parse._WHATWG_C0_CONTROL_OR_SPACE url).

(** A URL is absolute when [urlsplit] finds a scheme in it. *)
Definition has_scheme (u : pystr) : bool :=
  match urllib_parse.split_scheme (cleaned u) with
  | Some _ => true
  | None => false
  end.

(** The characters of [scheme_chars], by ranges. *)
Definition is_scheme_char (c : N) : bool :=
  is_ascii_lower c || is_ascii_upper c || is_ascii_digit c
  || N.eqb c 43 || N.eqb c 45 || N.eqb c 46.

(** What [urlsplit] makes of a scheme it found: a lower-case letter
    followed by lower-case scheme characters. *)
Definition is_parsed_scheme (s : pystr) : bool :=
  match s with
  | c :: _ => is_ascii_lower c
  | [] => false
  end
  && forallb (fun c => is_scheme_char c && negb (is_ascii_upper c)) s.

(** *** Reading a log *)

(** The form numbers a log announces, in the order they were logged. *)
Definition announced_forms (l : list LogRecord) : list nat :=
  omap (fun r => match snd r with AnalyzingForm i => Some i | _ => None end) l.

(** How many records of a log carry a message of a given kind. *)
Definition count_records (kind : LogMsg -> bool) (l : list LogRecord) : nat :=
  length (List.filter (fun r => kind (snd r)) l).

Definition is_vulnerability_warning (m : LogMsg) : bool :=
  match m with PotentialVulnerability => true | _ => false end.

Definition is_failure_report (m : LogMsg) : bool :=
  match m with FailedToAnalyzeForm _ => true | _ => false end.

Definition is_token_report (m : LogMsg) : bool :=
  match m with TokenPresentYes _ => true | _ => false end.

(** The level each kind of message is logged at; a token report always
    names a field the pattern matches. *)
Definition well_levelled (r : LogRecord) : Prop :=
  match r with
  | (ERROR, InvalidURLProvided)
  | (ERROR, ErrorFetchingURL _)
  | (ERROR, ErrorParsingHTML _)
  | (ERROR, ErrorAnalyzingForm _)
  | (ERROR, FailedToAnalyzeForm _)
  | (INFO, AnalyzingURL _)
  | (INFO, NoFormsFound)
  | (INFO, AnalyzingForm _)
  | (INFO, MethodIs _)
  | (INFO, ActionIs _)
  | (WARNING, TokenPresentNo)
  | (WARNING, PotentialVulnerability) => True
  | (INFO, TokenPresentYes (Some name)) => re.search name = true
  | _ => False
  end.

(** How the analysis of one form ends. *)
Inductive Verdict := Protected | Unprotected | Failed.

Definition verdict `{Runtime} (form : PageElement) (url : pystr) : Verdict :=
  match fst (analyze_form form url) with
  | Returns (Some r) => if has_csrf_token r then Protected else Unprotected
  | _ => Failed
  end.

Definition has_verdict `{Runtime} (v : Verdict) (url : pystr)
    (form : PageElement) : bool :=
  match verdict form url, v with
  | Protected, Protected | Unprotected, Unprotected | Failed, Failed => true
  | _, _ => false
  end.

(** Induction on a tree with the hypothesis available for every child. *)
Fixpoint PageElement_children_ind (P : PageElement -> Prop)
    (Htext : forall text, P (NavigableString text))
    (Htag : forall name attrs contents,
        Forall P contents -> P (Tag name attrs contents))
    (t : PageElement) : P t :=
  match t with
  | NavigableString text => Htext text
  | Tag name attrs contents =>
      Htag name attrs contents
        ((fix children (cs : list PageElement) : Forall P cs :=
            match cs with
            | [] => @List.Forall_nil PageElement P
            | c :: cs' =>
                @List.Forall_cons PageElement P c cs'
                  (PageElement_children_ind P Htext Htag c) (children cs')
            end) contents)
  end.

(** *** Ordinary URLs *)

(** A scheme as it may be written: a letter, then letters, digits, [+],
    [-] or [.], in either case. *)
Definition is_scheme_text (s : pystr) : bool :=
  match s with
  | c :: _ => is_ascii_alpha c
  | [] => false
  end
  && forallb is_scheme_char s.

(** A character of a plain authority: ASCII, and none of the delimiters
    [/], [?], [#], the brackets, tab, line feed or carriage return. *)
Definition is_plain_host_char (c : N) : bool :=
  is_ascii c
  && negb (existsb (N.eqb c) (py "/?#[]" ++ [9; 10; 13]%N)).

(** What may follow the authority: nothing, or a path, query or fragment. *)
Definition starts_path (rest : pystr) : bool :=
  match rest with
  | [] => true
  | c :: _ => contains c (py "/?#")
  end.

(** *** The text of a URL *)

(** A space or a control character below it. *)
Definition is_blank (c : N) : bool := (c <=? 32)%N.

Definition is_tab_or_line_break (c : N) : bool :=
  N.eqb c 9 || N.eqb c 10 || N.eqb c 13.

(** The string as a URL is read: without its leading blanks, and without
    any tab or line break. *)
Definition url_text (url : pystr) : pystr :=
  List.filter (fun c => negb (is_tab_or_line_break c))
    (drop_while is_blank url).

(** The string has a scheme: a scheme as it may be written, followed by a
    colon.  No scheme character is a colon, so this is the first colon. *)
Definition has_url_scheme (url : pystr) : Prop :=
  exists s rest,
    url_text url = s ++ chr ":" :: rest /\ is_scheme_text s = true.







(** A path as it is ordinarily written: empty, or starting with a slash,
    and without [;], [?], [#], tab or line break. *)
Definition is_simple_path (p : pystr) : bool :=
  match p with
  | [] => true
  | c :: _ => N.eqb c (chr "/")
  end
  && forallb (fun c => negb (contains c (py "?#;"))
                       && negb (is_tab_or_line_break c)) p.

(** *** Positions in a tree and document order *)

(** The element reached from [t] by following child numbers (counted from
    0): the empty path is [t] itself, a non-empty path a descendant. *)
Fixpoint subtree (t : PageElement) (p : list nat) : option PageElement :=
  match p with
  | [] => Some t
  | i :: p' =>
      match t with
      | Tag _ _ cs =>
          match cs !! i with
          | Some c => subtree c p'
          | None => None
          end
      | NavigableString _ => None
      end
  end.

(** Document order on positions: an element comes before its descendants
    and before everything that starts at a later sibling of it or of one
    of its ancestors. *)
Fixpoint path_before (p q : list nat) : bool :=
  match p, q with
  | [], [] => false
  | [], _ :: _ => true
  | _ :: _, [] => false
  | i :: p', j :: q' => Nat.ltb i j || (Nat.eqb i j && path_before p' q')
  end.

(** The descendants of a tree with their positions, children numbered
    from [i] on. *)
Fixpoint place_all (i : nat)
    (subs : list (PageElement * list (list nat * PageElement)))
  : list (list nat * PageElement) :=
  match subs with
  | [] => []
  | (c, sub) :: rest =>
      (([i], c) :: ((fun pe => (i :: fst pe, snd pe)) <$> sub))
      ++ place_all (S i) rest
  end.

Fixpoint located (t : PageElement) : list (list nat * PageElement) :=
  match t with
  | NavigableString _ => []
  | Tag _ _ cs => place_all 0 (map (fun c => (c, located c)) cs)
  end.

(** *** The pattern, in words *)

(** Text character [c] is the pattern letter [p] up to case: its ASCII
    lower-case form is [p], or it is one of the four non-ASCII letters
    that fold onto [i], [s] or [k]. *)
Definition same_letter (p c : N) : Prop :=
  ascii_lower c = p
  \/ (p = chr "i" /\ (c = 304%N \/ c = 305%N))
  \/ (p = chr "s" /\ c = 383%N)
  \/ (p = chr "k" /\ c = 8490%N).

Definition keywords : list pystr :=
  [py "csrf"; py "token"; py "xsrf"; py "authenticity"].

(** One of the keywords occurs in [name], letter by letter up to case. *)
Definition contains_keyword (name : pystr) : Prop :=
  exists kw pre mid post,
    kw ∈ keywords /\ name = pre ++ mid ++ post /\ Forall2 same_letter kw mid.

(** At position [p] below [form] there is an [input] element whose [type]
    is exactly ["hidden"] and whose [name] contains a keyword. *)
Definition token_input_at (form : PageElement) (p : list nat) (name : pystr)
  : Prop :=
  p <> []
  /\ exists attrs cs,
       subtree form p = Some (Tag (py "input") attrs cs)
       /\ attrs !! py "type" = Some (py "hidden")
       /\ attrs !! py "name" = Some name
       /\ contains_keyword name.

(** ** Worked examples *)

Module Examples.
Local Open Scope string_scope.

Definition attrs (l : list (string * string)) : gmap pystr pystr :=
  list_to_map ((fun kv => (py (fst kv), py (snd kv))) <$> l).

Definition input (l : list (string * string)) : PageElement :=
  Tag (py "input") (attrs l) [].

Definition page_url : pystr := py "https://a.com/login".

(** A form with a relative action whose first matching hidden input is the
    third one in document order; a later input matches as well. *)
Definition login_form : PageElement :=
  Tag (py "form") (attrs [("action", "/submit"); ("method", "post")])
    [ NavigableString (py "Sign in");
      Tag (py "div") ∅
        [ input [("type", "hidden"); ("name", "user_id")];
          input [("type", "Hidden"); ("name", "csrf")];
          input [("type", "hidden")];
          input [("type", "hidden"); ("name", "my_ToKeN")] ];
      input [("type", "hidden"); ("name", "csrf_token")];
      input [("type", "submit")] ].

(** No [method], no [action], one hidden field that is not a token. *)
Definition search_form : PageElement :=
  Tag (py "form") ∅
    [ input [("type", "hidden"); ("name", "user_id")];
      input [("type", "text"); ("name", "token")] ].

(** A form whose action cannot be parsed: the bracket is never closed. *)
Definition broken_form : PageElement :=
  Tag (py "form") (attrs [("action", "http://[")])
    [ input [("type", "hidden"); ("name", "csrf_token")] ].

(** A form that has nothing but the given [action]. *)
Definition form_with_action (a : string) : PageElement :=
  Tag (py "form") (attrs [("action", a)]) [].

(** A form of an HTML dialog. *)
Definition dialog_form : PageElement :=
  Tag (py "form") (attrs [("method", "dialog"); ("action", "")]) [].

Definition document : PageElement :=
  Tag (py "[document]") ∅
    [ Tag (py "html") ∅
        [ Tag (py "body") ∅ [login_form; broken_form; search_form] ] ].

Definition body : list N := py "<html>...</html>".

(** The login page answers 200 with [body], [/empty] answers 200 with a
    page without forms, [/garbled] answers 200 with bytes the parser
    rejects, [/missing] answers 404, [/denied] answers with the
    non-standard status 999 and the same [body], and everything else is
    unreachable.
    The runtime tables are trivial: the examples are ASCII and never
    consult them. *)
Definition runtime : Runtime := {|
  requests_get := fun url =>
    if str_eqb url page_url then Ok (mkResponse 200 body)
    else if str_eqb url (py "https://a.com/missing")
         then Ok (mkResponse 404 [])
    else if str_eqb url (py "https://a.com/denied")
         then Ok (mkResponse 999 body)
    else if str_eqb url (py "https://a.com/empty")
         then Ok (mkResponse 200 [])
    else if str_eqb url (py "https://a.com/garbled")
         then Ok (mkResponse 200 [255; 254]%N)
    else Err (mkExn ConnectionError "connection refused");
  BeautifulSoup := fun c =>
    if str_eqb c body then Ok document
    else if str_eqb c [] then Ok (Tag (py "[document]") ∅ [])
    else Err (mkExn OtherException "parser failure");
  unicode_upper := fun c => [c];
  unicodedata_normalize_NFKC := fun s => s;
  ipaddress_ip_address := fun _ => Err (mkExn ValueError "bad address")
|}.

End Examples.

(** Further example trees. *)
Module MoreExamples.
Local Open Scope string_scope.

(** A form nested in another; only the inner one has the token field as a
    child. *)
Definition inner_form : PageElement :=
  Tag (py "form") (Examples.attrs [("action", "/inner")])
    [ Examples.input [("type", "hidden"); ("name", "csrf_token")] ].

Definition outer_form : PageElement :=
  Tag (py "form") (Examples.attrs [("action", "/outer")])
    [ Examples.input [("type", "text"); ("name", "q")];
      Tag (py "div") ∅ [inner_form] ].

(** A form whose only input spells its type in capitals. *)
Definition shouting_form : PageElement :=
  Tag (py "form") ∅
    [ Examples.input [("type", "HIDDEN"); ("name", "csrf_token")] ].

End MoreExamples.

(** Boolean range tests on code points, decided by [lia]. *)
Ltac bool_lia :=
  unfold is_scheme_char, is_ascii_alpha in *;
  unfold is_ascii_lower, is_ascii_upper, is_ascii_digit, is_ascii, chr in *;
  cbn in *;
  repeat rewrite ?andb_true_iff, ?orb_true_iff, ?negb_true_iff,
    ?andb_false_iff, ?orb_false_iff, ?negb_false_iff,
    ?N.leb_le, ?N.leb_gt, ?N.ltb_lt, ?N.ltb_ge, ?N.eqb_eq, ?N.eqb_neq in *;
  lia.

(** * Properties *)

(** ** The shape of the three guarded functions *)

Section shape.
Context `{Runtime}.

Lemma analyze_form_unfold form url :
  analyze_form form url =
  match urllib_parse.urljoin url (form_action_arg form url) with
  | Ok a => (Returns (Some (form_result form a)), [])
  | Err e => (Returns None, [(ERROR, ErrorAnalyzingForm e)])
  end.
Proof.
  unfold analyze_form, form_action_arg, form_result.
  destruct (urllib_parse.urljoin _ _); reflexivity.
Qed.

Lemma analyze_form_Some form url r l :
  analyze_form form url = (Returns (Some r), l) ->
  exists a, urllib_parse.urljoin url (form_action_arg form url) = Ok a
            /\ r = form_result form a /\ l = [].
Proof.
  rewrite analyze_form_unfold.
  destruct (urllib_parse.urljoin _ _) as [a|e]; intros E; inversion E; eauto.
Qed.

Lemma validate_url_unfold url :
  validate_url url =
  (Returns match urllib_parse.urlparse url [] with
           | Ok r => truthy (urllib_parse.scheme r)
                     && truthy (urllib_parse.netloc r)
           | Err _ => false
           end, []).
Proof.
  unfold validate_url.
  destruct (urllib_parse.urlparse _ _); reflexivity.
Qed.

End shape.

(** ** The token heuristic *)

Lemma search_empty : re.search [] = false.
Proof. reflexivity. Qed.

Lemma scan_inputs_cons inp rest :
  scan_inputs (inp :: rest) =
  if looks_like_token inp then tag_get inp (py "name") else scan_inputs rest.
Proof.
  unfold looks_like_token. cbn [scan_inputs].
  destruct (bool_decide _); cbn [andb]; [|reflexivity].
  destruct (tag_get inp (py "name")) as [name|]; [|reflexivity].
  destruct name as [|c name]; [rewrite search_empty; reflexivity|].
  cbn [truthy andb]. destruct (re.search _); reflexivity.
Qed.

Lemma looks_like_token_named inp :
  looks_like_token inp = true ->
  exists name, tag_get inp (py "name") = Some name /\ re.search name = true
               /\ name <> [].
Proof.
  unfold looks_like_token. intros E.
  apply andb_prop in E as [_ E].
  destruct (tag_get inp (py "name")) as [name|]; [|discriminate].
  exists name. split; [reflexivity|]. split; [assumption|].
  intros ->. rewrite search_empty in E. discriminate.
Qed.

Lemma scan_inputs_none inputs :
  scan_inputs inputs = None <->
  (forall inp, inp ∈ inputs -> looks_like_token inp = false).
Proof.
  induction inputs as [|x rest IH].
  - split; [|reflexivity]. intros _ inp Hin. inversion Hin.
  - rewrite scan_inputs_cons. split.
    + intros E inp Hin. destruct (looks_like_token x) eqn:Ex.
      * apply looks_like_token_named in Ex as (n & En & _). congruence.
      * apply elem_of_cons in Hin as [->|Hin]; [assumption|].
        apply IH; assumption.
    + intros Hall. rewrite (Hall x) by (left).
      apply IH. intros inp Hin. apply Hall. right. assumption.
Qed.

Lemma scan_inputs_first inputs name :
  scan_inputs inputs = Some name <->
  exists i inp,
    inputs !! i = Some inp /\ looks_like_token inp = true
    /\ tag_get inp (py "name") = Some name
    /\ (forall j inp', (j < i)%nat -> inputs !! j = Some inp' ->
                       looks_like_token inp' = false).
Proof.
  revert name. induction inputs as [|x rest IH]; intros name.
  - split; [discriminate|]. intros (i & inp & E & _). destruct i; discriminate.
  - rewrite scan_inputs_cons. destruct (looks_like_token x) eqn:Ex.
    + split.
      * intros E. exists 0%nat, x. repeat split; try assumption. intros; lia.
      * intros (i & inp & Ei & Hl & Hn & Hfirst). destruct i as [|i].
        -- cbn in Ei. congruence.
        -- specialize (Hfirst 0%nat x ltac:(lia) eq_refl). congruence.
    + rewrite IH. split.
      * intros (i & inp & Ei & Hl & Hn & Hfirst).
        exists (S i), inp. repeat split; try assumption.
        intros [|j] inp' Hj Ej; cbn in Ej.
        -- congruence.
        -- apply (Hfirst j); [lia|assumption].
      * intros (i & inp & Ei & Hl & Hn & Hfirst). destruct i as [|i].
        -- cbn in Ei. congruence.
        -- exists i, inp. repeat split; try assumption.
           intros j inp' Hj Ej. apply (Hfirst (S j)); [lia|assumption].
Qed.

Lemma match_here_spec pat text :
  re.match_here pat text = true <->
  exists mid post,
    text = mid ++ post
    /\ Forall2 (fun p c => re.ignorecase_match p c = true) pat mid.
Proof.
  revert text. induction pat as [|p pat IH]; intros text.
  - split; [|reflexivity]. intros _. exists [], text. split; [reflexivity|constructor].
  - destruct text as [|c text]; cbn [re.match_here].
    + split; [discriminate|]. intros (mid & post & E & F).
      inversion F; subst. discriminate.
    + rewrite andb_true_iff, IH. split.
      * intros (Ec & mid & post & -> & F). exists (c :: mid), post.
        split; [reflexivity|]. constructor; assumption.
      * intros (mid & post & E & F). inversion F as [|? c' ? mid' Ec F']; subst.
        injection E as -> ->. split; [assumption|]. eauto.
Qed.

Lemma search_spec text :
  re.search text = true <->
  exists kw, kw ∈ re.alternatives /\ ci_occurs kw text.
Proof.
  induction text as [|c text IH].
  - rewrite search_empty. split; [discriminate|].
    intros (kw & Hkw & pre & mid & post & E & F). exfalso.
    symmetry in E. apply app_eq_nil in E as [-> E].
    apply app_eq_nil in E as [-> ->]. inversion F; subst.
    repeat (apply elem_of_cons in Hkw as [Hkw|Hkw]; [discriminate|]).
    inversion Hkw.
  - cbn [re.search]. rewrite orb_true_iff, existsb_exists, IH. split.
    + intros [(kw & Hin & Hm)|(kw & Hin & pre & mid & post & -> & F)].
      * apply match_here_spec in Hm as (mid & post & E & F).
        exists kw. split; [apply list_elem_of_In; assumption|].
        exists [], mid, post. split; assumption.
      * exists kw. split; [assumption|].
        exists (c :: pre), mid, post. split; [reflexivity|assumption].
    + intros (kw & Hin & pre & mid & post & E & F). destruct pre as [|c' pre].
      * left. exists kw. split; [apply list_elem_of_In; assumption|].
        apply match_here_spec. exists mid, post. split; assumption.
      * right. injection E as -> ->. exists kw. split; [assumption|].
        exists pre, mid, post. split; [reflexivity|assumption].
Qed.

(** ** Document order *)

Lemma path_before_irrefl p : path_before p p = false.
Proof.
  induction p as [|i p IH]; [reflexivity|].
  cbn [path_before]. rewrite Nat.ltb_irrefl, Nat.eqb_refl, IH. reflexivity.
Qed.

Lemma path_before_asym p q :
  path_before p q = true -> path_before q p = false.
Proof.
  revert q. induction p as [|i p IH]; intros [|j q]; cbn [path_before];
    try reflexivity; try discriminate.
  intros E. apply orb_prop in E as [E|E].
  - apply Nat.ltb_lt in E.
    assert (Nat.ltb j i = false) as -> by (apply Nat.ltb_ge; lia).
    assert (Nat.eqb j i = false) as -> by (apply Nat.eqb_neq; lia).
    reflexivity.
  - apply andb_prop in E as [Eij E]. apply Nat.eqb_eq in Eij. subst j.
    rewrite Nat.ltb_irrefl, Nat.eqb_refl, (IH _ E). reflexivity.
Qed.

Lemma place_all_snd i cs :
  Forall (fun c => (snd <$> located c) = descendants c) cs ->
  (snd <$> place_all i (map (fun c => (c, located c)) cs))
  = flat_map (fun c => c :: descendants c) cs.
Proof.
  intros IH. revert i. induction IH as [|c cs Hc _ IHcs]; intros i;
    [reflexivity|].
  cbn [map place_all flat_map]. rewrite fmap_app, IHcs.
  cbn [fmap list_fmap snd]. rewrite <- list_fmap_compose.
  change (snd ∘ (fun pe : list nat * PageElement => (i :: pe.1, pe.2)))
    with (@snd (list nat) PageElement).
  rewrite Hc. reflexivity.
Qed.

Lemma located_snd t : (snd <$> located t) = descendants t.
Proof.
  induction t as [text|name attrs cs IH] using PageElement_children_ind;
    [reflexivity|].
  cbn [located descendants]. apply place_all_snd, IH.
Qed.

Lemma place_all_spec i0 cs p e :
  Forall (fun c => forall p e,
            (p, e) ∈ located c <-> p <> [] /\ subtree c p = Some e) cs ->
  (p, e) ∈ place_all i0 (map (fun c => (c, located c)) cs)
  <-> exists k q c,
        p = (i0 + k)%nat :: q /\ cs !! k = Some c /\ subtree c q = Some e.
Proof.
  intros IH. revert i0. induction IH as [|c cs Hc _ IHcs]; intros i0.
  - cbn. split; [intros C; inversion C|].
    intros (k & q & c & _ & C & _). destruct k; discriminate.
  - cbn [map place_all]. rewrite elem_of_app, elem_of_cons, IHcs,
      list_elem_of_fmap. split.
    + intros [[E | ([q e'] & E & Hin)] | (k & q & c' & -> & Hk & Hs)].
      * injection E as -> ->. exists 0%nat, [], c.
        rewrite Nat.add_0_r. repeat split.
      * cbn [fst snd] in E. injection E as -> ->.
        apply Hc in Hin as [_ Hs]. exists 0%nat, q, c.
        rewrite Nat.add_0_r. repeat split. exact Hs.
      * exists (S k), q, c'. repeat split; [f_equal; lia|exact Hk|exact Hs].
    + intros (k & q & c' & -> & Hk & Hs). destruct k as [|k].
      * left. cbn in Hk. injection Hk as <-. rewrite Nat.add_0_r.
        destruct q as [|j q].
        -- left. cbn in Hs. congruence.
        -- right. exists (j :: q, e). split; [reflexivity|].
           apply Hc. split; [discriminate|exact Hs].
      * right. exists k, q, c'. repeat split; [f_equal; lia|exact Hk|exact Hs].
Qed.

(** [located] lists exactly the descendants, each with its position. *)
Lemma located_spec t p e :
  (p, e) ∈ located t <-> p <> [] /\ subtree t p = Some e.
Proof.
  revert p e.
  induction t as [text|name attrs cs IH] using PageElement_children_ind;
    intros p e.
  - cbn. split; [intros C; inversion C|].
    intros [Hp C]. destruct p; [contradiction|discriminate].
  - cbn [located]. rewrite (place_all_spec 0 cs p e IH). split.
    + intros (k & q & c & -> & Hk & Hs). split; [discriminate|].
      cbn [subtree Nat.add]. rewrite Hk. exact Hs.
    + intros [Hp Hs]. destruct p as [|k q]; [contradiction|].
      cbn [subtree] in Hs. destruct (cs !! k) as [c|] eqn:Hk; [|discriminate].
      exists k, q, c. repeat split; assumption.
Qed.

Lemma place_all_heads i0 subs p e :
  (p, e) ∈ place_all i0 subs -> exists j q, p = j :: q /\ (i0 <= j)%nat.
Proof.
  revert i0. induction subs as [|[c sub] subs IH]; intros i0.
  - intros C. inversion C.
  - cbn [place_all]. rewrite elem_of_app, elem_of_cons, list_elem_of_fmap.
    intros [[E | ([q e'] & E & _)] | Hin].
    + injection E as -> _. eauto.
    + injection E as -> _. eauto.
    + apply IH in Hin as (j & q & -> & Hj). exists j, q. split; [reflexivity|lia].
Qed.

Lemma place_all_sorted i0 cs :
  Forall (fun c => StronglySorted
                     (fun a b => path_before (fst a) (fst b) = true)
                     (located c)) cs ->
  StronglySorted (fun a b => path_before (fst a) (fst b) = true)
    (place_all i0 (map (fun c => (c, located c)) cs)).
Proof.
  intros IH. revert i0. induction IH as [|c cs Hc _ IHcs]; intros i0;
    [constructor|].
  cbn [map place_all]. apply StronglySorted_app. split; [|split].
  - intros [p1 e1] [p2 e2] H1 H2. cbn [fst].
    apply place_all_heads in H2 as (j & q & -> & Hj).
    assert (exists q1, p1 = i0 :: q1) as (q1 & ->).
    { apply elem_of_cons in H1 as [E | H1]; [injection E as -> _; eauto|].
      apply list_elem_of_fmap in H1 as ([q0 e'] & E & _).
      injection E as -> _. eauto. }
    cbn [path_before].
    assert (Nat.ltb i0 j = true) as -> by (apply Nat.ltb_lt; lia).
    reflexivity.
  - apply StronglySorted_cons. split.
    + apply Forall_forall. intros [p2 e2] H2.
      apply list_elem_of_fmap in H2 as ([q e'] & E & Hin).
      injection E as -> ->. cbn [fst path_before].
      rewrite Nat.ltb_irrefl, Nat.eqb_refl. cbn [orb andb].
      apply located_spec in Hin as [Hq _]. destruct q; [contradiction|].
      reflexivity.
    + clear -Hc. induction Hc as [|[q e'] l _ IH Hhd]; [constructor|].
      cbn [fmap list_fmap]. apply StronglySorted_cons. split; [|exact IH].
      apply Forall_fmap. eapply Forall_impl; [exact Hhd|].
      intros [q2 e2] Hlt. unfold compose. cbn [fst snd path_before] in *.
      rewrite Nat.ltb_irrefl, Nat.eqb_refl. exact Hlt.
  - apply IHcs.
Qed.

(** [located] lists the descendants in document order. *)
Lemma located_sorted t :
  StronglySorted (fun a b => path_before (fst a) (fst b) = true) (located t).
Proof.
  induction t as [text|name attrs cs IH] using PageElement_children_ind;
    [constructor|].
  cbn [located]. apply place_all_sorted, IH.
Qed.

(** ** The pattern in words, and the first token input by position *)

Lemma same_letter_match p c :
  is_ascii_lower p = true ->
  (same_letter p c <-> re.ignorecase_match p c = true).
Proof.
  intros Hp. unfold same_letter, re.ignorecase_match, ascii_lower.
  change (chr "i") with 105%N. change (chr "s") with 115%N.
  change (chr "k") with 107%N.
  unfold is_ascii_lower in Hp. apply andb_prop in Hp as [Hp1 Hp2].
  apply N.leb_le in Hp1, Hp2.
  rewrite !orb_true_iff, !andb_true_iff, !orb_true_iff, !N.eqb_eq.
  destruct (is_ascii_upper c) eqn:Ec; unfold is_ascii_upper in Ec.
  - apply andb_prop in Ec as [Ec1 Ec2]. apply N.leb_le in Ec1, Ec2. lia.
  - apply andb_false_iff in Ec. rewrite !N.leb_gt in Ec. lia.
Qed.

Lemma keywords_lower :
  Forall (fun kw => Forall (fun p => is_ascii_lower p = true) kw) keywords.
Proof. repeat constructor. Qed.

Lemma contains_keyword_search name :
  contains_keyword name <-> re.search name = true.
Proof.
  rewrite search_spec. unfold contains_keyword, ci_occurs.
  change re.alternatives with keywords.
  assert (Hiff : forall kw mid,
            kw ∈ keywords ->
            (Forall2 same_letter kw mid
             <-> Forall2 (fun p c => re.ignorecase_match p c = true) kw mid)).
  { intros kw mid Hkw.
    pose proof (proj1 (Forall_forall _ _) keywords_lower kw Hkw) as Hlow.
    clear Hkw. revert mid.
    induction Hlow as [|p kw Hp _ IH]; intros mid.
    - split; intros F; inversion F; constructor.
    - split; intros F; inversion F as [|? c ? mid' Hpc F']; subst;
        constructor; try (apply IH; exact F');
        apply (same_letter_match p c Hp); exact Hpc. }
  split.
  - intros (kw & pre & mid & post & Hkw & -> & F).
    exists kw. split; [exact Hkw|]. exists pre, mid, post.
    split; [reflexivity|]. apply Hiff; assumption.
  - intros (kw & Hkw & pre & mid & post & -> & F).
    exists kw, pre, mid, post. split; [exact Hkw|].
    split; [reflexivity|]. apply Hiff; assumption.
Qed.

(** What [looks_like_token] says of an [input] element, read on its
    attribute dictionary. *)
Lemma input_token_spec e name :
  tag_name e = Some (py "input") ->
  (looks_like_token e = true /\ tag_get e (py "name") = Some name
   <-> exists attrs cs,
         e = Tag (py "input") attrs cs
         /\ attrs !! py "type" = Some (py "hidden")
         /\ attrs !! py "name" = Some name
         /\ contains_keyword name).
Proof.
  destruct e as [text|n attrs cs]; [discriminate|].
  cbn [tag_name]. intros E. injection E as ->.
  unfold looks_like_token. cbn [tag_get]. split.
  - intros [Hl Hn]. apply andb_prop in Hl as [Hty Hs].
    apply bool_decide_eq_true in Hty. rewrite Hn in Hs.
    exists attrs, cs. repeat split; try assumption.
    apply contains_keyword_search, Hs.
  - intros (attrs' & cs' & E & Hty & Hn & Hk). injection E as <- <-.
    rewrite Hn. split; [|reflexivity].
    rewrite (bool_decide_eq_true_2 _ Hty).
    apply contains_keyword_search, Hk.
Qed.

Lemma token_input_located form p name :
  token_input_at form p name
  <-> exists e,
        (p, e) ∈ located form
        /\ bool_decide (tag_name e = Some (py "input")) = true
        /\ looks_like_token e = true
        /\ tag_get e (py "name") = Some name.
Proof.
  unfold token_input_at. split.
  - intros (Hp & attrs & cs & Hs & Hty & Hn & Hk).
    exists (Tag (py "input") attrs cs).
    split; [apply located_spec; auto|].
    split; [apply bool_decide_eq_true; reflexivity|].
    apply (input_token_spec (Tag (py "input") attrs cs) name eq_refl).
    eauto 10.
  - intros (e & Hin & Hf & Hl & Hn).
    apply located_spec in Hin as [Hp Hs]. split; [exact Hp|].
    apply bool_decide_eq_true in Hf.
    destruct (proj1 (input_token_spec e name Hf) (conj Hl Hn))
      as (attrs & cs & -> & Hty & Hn' & Hk).
    exists attrs, cs. auto.
Qed.

Lemma scan_filter_first (f : PageElement -> bool) D name :
  scan_inputs (List.filter f D) = Some name
  <-> exists D1 e D2,
        D = D1 ++ e :: D2
        /\ f e = true /\ looks_like_token e = true
        /\ tag_get e (py "name") = Some name
        /\ Forall (fun e' => f e' = true -> looks_like_token e' = false) D1.
Proof.
  induction D as [|x D IH].
  - split; [discriminate|]. intros (D1 & e & D2 & E & _).
    destruct D1; discriminate.
  - cbn [List.filter]. destruct (f x) eqn:Ef.
    + rewrite scan_inputs_cons. destruct (looks_like_token x) eqn:El.
      * split.
        -- intros Hn. exists [], x, D. repeat split; auto.
        -- intros (D1 & e & D2 & E & Hf & Hl & Hn & Hall).
           destruct D1 as [|y D1]; cbn [app] in E; injection E as <- E.
           ++ exact Hn.
           ++ inversion Hall as [|? ? Hy _]; subst.
              rewrite (Hy Ef) in El. discriminate.
      * rewrite IH. split.
        -- intros (D1 & e & D2 & -> & Hf & Hl & Hn & Hall).
           exists (x :: D1), e, D2. repeat split; auto.
        -- intros (D1 & e & D2 & E & Hf & Hl & Hn & Hall).
           destruct D1 as [|y D1]; cbn [app] in E; injection E as <- E.
           ++ congruence.
           ++ exists D1, e, D2. inversion Hall; subst. repeat split; auto.
    + rewrite IH. split.
      * intros (D1 & e & D2 & -> & Hf & Hl & Hn & Hall).
        exists (x :: D1), e, D2. repeat split; auto.
        constructor; [congruence|exact Hall].
      * intros (D1 & e & D2 & E & Hf & Hl & Hn & Hall).
        destruct D1 as [|y D1]; cbn [app] in E; injection E as <- E.
        -- congruence.
        -- exists D1, e, D2. inversion Hall; subst. repeat split; auto.
Qed.

(** The loop over [find_all('input')] stops at the token input whose
    position is first in document order. *)
Lemma scan_in_document_order form name :
  scan_inputs (find_all form (py "input")) = Some name
  <-> exists p,
        token_input_at form p name
        /\ forall q name', path_before q p = true ->
                           ~ token_input_at form q name'.
Proof.
  unfold find_all. rewrite scan_filter_first, <- located_snd.
  pose proof (located_sorted form) as Hsorted. split.
  - intros (D1 & e & D2 & E & Hf & Hl & Hn & Hall).
    apply fmap_app_inv in E as (L1 & L2' & -> & E2 & EL).
    symmetry in E2. apply fmap_cons_inv in E2 as ([p e0] & L2 & He & -> & ->).
    cbn [snd] in He. subst e0. rewrite EL in Hsorted. exists p. split.
    + apply token_input_located. exists e. split; [|auto].
      rewrite EL. apply elem_of_app. right. left.
    + intros q name' Hq Ht.
      apply token_input_located in Ht as (e' & Hin & Hf' & Hl' & _).
      rewrite EL in Hin.
      apply elem_of_app in Hin as [Hin|Hin];
        [|apply elem_of_cons in Hin as [Hin|Hin]].
      * rewrite Forall_forall in Hall.
        assert (He' : e' ∈ snd <$> L1).
        { apply list_elem_of_fmap. exists (q, e'). auto. }
        rewrite (Hall e' He' Hf') in Hl'. discriminate.
      * injection Hin as -> _. rewrite path_before_irrefl in Hq.
        discriminate.
      * apply StronglySorted_app_1_r, StronglySorted_cons in Hsorted
          as [Hafter _].
        rewrite Forall_forall in Hafter. specialize (Hafter _ Hin).
        cbn [fst] in Hafter. apply path_before_asym in Hafter. congruence.
  - intros (p & Ht & Hmin).
    apply token_input_located in Ht as (e & Hin & Hf & Hl & Hn).
    apply list_elem_of_split in Hin as (L1 & L2 & EL).
    rewrite EL in Hsorted.
    exists (snd <$> L1), e, (snd <$> L2). rewrite EL, fmap_app.
    repeat split; auto.
    apply Forall_forall. intros e' He' Hf'.
    apply list_elem_of_fmap in He' as ([q e0] & -> & Hq). cbn [snd] in *.
    destruct (looks_like_token e0) eqn:Hl'; [exfalso|reflexivity].
    destruct (looks_like_token_named e0 Hl') as (name' & Hn' & _).
    apply (Hmin q name').
    + apply (StronglySorted_app_1_elem_of _ _ _ (q, e0) (p, e) Hsorted Hq).
      left.
    + apply token_input_located. exists e0. split; [|auto].
      rewrite EL. apply elem_of_app. left. exact Hq.
Qed.

Lemma scan_no_token_input form :
  scan_inputs (find_all form (py "input")) = None
  <-> forall p name, ~ token_input_at form p name.
Proof.
  split.
  - intros Hnone p name Ht.
    assert (Hex : exists n, scan_inputs (find_all form (py "input")) = Some n).
    { destruct (scan_inputs (find_all form (py "input"))) as [n|] eqn:E;
        [eauto|].
      exfalso. rewrite scan_inputs_none in E.
      apply token_input_located in Ht as (e & Hin & Hf & Hl & _).
      rewrite (E e) in Hl; [discriminate|].
      unfold find_all. apply list_elem_of_In, filter_In.
      split; [|exact Hf]. apply list_elem_of_In. rewrite <- located_snd.
      apply list_elem_of_fmap. exists (p, e). auto. }
    destruct Hex as (n & C). congruence.
  - intros Hnone.
    destruct (scan_inputs (find_all form (py "input"))) as [n|] eqn:E;
      [|reflexivity].
    apply scan_in_document_order in E as (p & Ht & _).
    exfalso. exact (Hnone p n Ht).
Qed.

(** ** The analysis of one form *)

Section analysis.
Context `{Runtime}.

(** C1. For every form on which [analyze_form] returns a result: the
    token inputs are the descendant [input] elements, at any depth, whose
    [type] is exactly [hidden] and whose [name] contains one of csrf,
    token, xsrf, authenticity in any letter case.  If the form has one,
    [has_csrf_token] is true and [token_name] is the name of the token
    input that comes first in document order, whatever follows it; if it
    has none, [has_csrf_token] is false and [token_name] is [None]. *)
Theorem C1_first_token_input_in_document_order form url r l :
  analyze_form form url = (Returns (Some r), l) ->
  (forall p name,
      token_input_at form p name ->
      (forall q name', path_before q p = true ->
                       ~ token_input_at form q name') ->
      has_csrf_token r = true /\ token_name r = Some name)
  /\ ((exists p name, token_input_at form p name) ->
      has_csrf_token r = true
      /\ exists p name,
           token_input_at form p name
           /\ (forall q name', path_before q p = true ->
                               ~ token_input_at form q name')
           /\ token_name r = Some name)
  /\ ((forall p name, ~ token_input_at form p name) ->
      has_csrf_token r = false /\ token_name r = None).
Proof.
  intros E. apply analyze_form_Some in E as (a & _ & -> & _).
  unfold form_result; cbn [has_csrf_token token_name].
  split; [|split].
  - intros p name Ht Hmin.
    assert (E : scan_inputs (find_all form (py "input")) = Some name)
      by (apply scan_in_document_order; eauto).
    rewrite E. split; [apply bool_decide_eq_true; discriminate|reflexivity].
  - intros (p & name & Ht).
    destruct (scan_inputs (find_all form (py "input"))) as [n|] eqn:E.
    + split; [apply bool_decide_eq_true; discriminate|].
      apply scan_in_document_order in E as (p' & Ht' & Hmin).
      exists p', n. auto.
    + rewrite scan_no_token_input in E. destruct (E p name Ht).
  - intros Hnone. apply scan_no_token_input in Hnone. rewrite Hnone.
    split; [apply bool_decide_eq_false; intros C; apply C|]; reflexivity.
Qed.

(** C3. In every dictionary [analyze_form] returns, [has_csrf_token] is
    true exactly when [token_name] is not [None]. *)
Theorem C3_has_token_iff_name form url r l :
  analyze_form form url = (Returns (Some r), l) ->
  (has_csrf_token r = true <-> token_name r <> None).
Proof.
  intros E. apply analyze_form_Some in E as (a & _ & -> & _).
  unfold form_result; cbn [has_csrf_token token_name].
  apply bool_decide_eq_true.
Qed.


(** C10. Whenever [has_csrf_token] is true, [token_name] is a name in which
    one of csrf, token, xsrf, authenticity occurs case-insensitively; for
    an ASCII name, its lower-cased form contains the keyword literally. *)
Theorem C10_token_name_matches_pattern form url r l :
  analyze_form form url = (Returns (Some r), l) ->
  has_csrf_token r = true ->
  exists name kw,
    token_name r = Some name
    /\ kw ∈ [py "csrf"; py "token"; py "xsrf"; py "authenticity"]
    /\ ci_occurs kw name
    /\ (isascii name = true ->
        exists pre post, ascii_lower <$> name = pre ++ kw ++ post).
Proof.
  intros E Hhas. apply analyze_form_Some in E as (a & _ & -> & _).
  unfold form_result in *; cbn [has_csrf_token token_name] in *.
  destruct (scan_inputs _) as [name|] eqn:E;
    [|apply bool_decide_eq_true in Hhas; contradiction].
  apply scan_inputs_first in E as (i & inp & _ & Hl & Hn & _).
  apply looks_like_token_named in Hl as (name' & Hn' & Hs & _).
  assert (name' = name) as -> by congruence.
  apply search_spec in Hs as (kw & Hkw & Hocc).
  exists name, kw. split; [reflexivity|]. split; [exact Hkw|].
  split; [exact Hocc|].
  intros Hascii. destruct Hocc as (pre & mid & post & -> & F).
  exists (ascii_lower <$> pre), (ascii_lower <$> post).
  rewrite !fmap_app. f_equal. f_equal.
  assert (Hlow : Forall (fun p => is_ascii_lower p = true) kw).
  { repeat (apply elem_of_cons in Hkw as [->|Hkw];
            [repeat constructor|]). inversion Hkw. }
  assert (Hmid : Forall (fun c => is_ascii c = true) mid).
  { unfold isascii in Hascii. rewrite !forallb_app in Hascii.
    apply andb_prop in Hascii as [_ Hascii].
    apply andb_prop in Hascii as [Hascii _].
    apply Forall_forall. intros c Hc.
    rewrite forallb_forall in Hascii. apply Hascii.
    apply list_elem_of_In. exact Hc. }
  clear -F Hlow Hmid. induction F as [|p c kw mid Hpc F IH]; [reflexivity|].
  inversion Hlow; subst. inversion Hmid; subst.
  cbn [fmap list_fmap]. f_equal; [|apply IH; assumption].
  unfold re.ignorecase_match, ascii_lower, is_ascii_upper, is_ascii_lower,
    is_ascii, chr in *. cbn in *.
  repeat match goal with
         | H : _ && _ = true |- _ => apply andb_prop in H as [? ?]
         | H : _ || _ = true |- _ => apply orb_prop in H as [?|?]
         | H : N.eqb _ _ = true |- _ => apply N.eqb_eq in H
         | H : N.leb _ _ = true |- _ => apply N.leb_le in H
         | H : N.ltb _ _ = true |- _ => apply N.ltb_lt in H
         end; subst;
  repeat match goal with
         | |- context [N.leb ?a ?b] =>
             destruct (N.leb_spec a b); cbn [andb]
         end; try lia.
Qed.

End analysis.

(** The login form has five hidden inputs.  In document order: [user_id]
    has no keyword, the next has type [Hidden], the next has no name, and
    [my_ToKeN], nested in the [div], is a token input; [csrf_token], a
    child of the form itself, comes later.  The name reported is
    [my_ToKeN]. *)
Lemma C1_first_token_input_in_document_order_witness :
  token_input_at Examples.login_form [1; 3]%nat (py "my_ToKeN")
  /\ token_input_at Examples.login_form [2]%nat (py "csrf_token")
  /\ path_before [1; 3]%nat [2]%nat = true
  /\ exists r,
       @analyze_form Examples.runtime Examples.login_form Examples.page_url
       = (Returns (Some r), [])
       /\ has_csrf_token r = true
       /\ token_name r = Some (py "my_ToKeN").
Proof.
  assert (Ht : token_input_at Examples.login_form [1; 3]%nat (py "my_ToKeN")).
  { split; [discriminate|]. eexists _, _.
    split; [vm_compute; reflexivity|].
    split; [vm_compute; reflexivity|].
    split; [vm_compute; reflexivity|].
    exists (py "token"), (py "my_"), (py "ToKeN"), [].
    split; [apply (list_elem_of_lookup_2 _ 1%nat); reflexivity|].
    split; [reflexivity|].
    repeat constructor; left; reflexivity. }
  split; [exact Ht|]. split; [|split; [reflexivity|]].
  { split; [discriminate|]. eexists _, _.
    split; [vm_compute; reflexivity|].
    split; [vm_compute; reflexivity|].
    split; [vm_compute; reflexivity|].
    exists (py "csrf"), [], (py "csrf"), (py "_token").
    split; [apply (list_elem_of_lookup_2 _ 0%nat); reflexivity|].
    split; [reflexivity|].
    repeat constructor; left; reflexivity. }
  assert (E : @analyze_form Examples.runtime Examples.login_form
                Examples.page_url
              = (Returns (Some (@form_result Examples.runtime
                                  Examples.login_form
                                  (py "https://a.com/submit"))), []))
    by (vm_compute; reflexivity).
  eexists. split; [exact E|].
  refine (proj1 (@C1_first_token_input_in_document_order Examples.runtime
                   _ _ _ _ E) [1; 3]%nat (py "my_ToKeN") Ht _).
  intros q name' Hq (Hne & attrs & cs & Hsub & Hty & Hname & Hkw).
  destruct q as [|[|[|i]] q];
    [congruence|destruct q; discriminate| |discriminate].
  destruct q as [|[|[|[|j]]] q];
    [discriminate| | | |destruct j; [destruct q|]; discriminate].
  - destruct q as [|k q]; [|destruct k; discriminate].
    injection Hsub as <- <-. vm_compute in Hname. injection Hname as <-.
    apply contains_keyword_search in Hkw. vm_compute in Hkw. discriminate.
  - destruct q as [|k q]; [|destruct k; discriminate].
    injection Hsub as <- <-. vm_compute in Hty. discriminate.
  - destruct q as [|k q]; [|destruct k; discriminate].
    injection Hsub as <- <-. vm_compute in Hname. discriminate.
Defined.

(** C1 as stated fails for a form whose action does not resolve: the
    broken form has a token input, yet [analyze_form] gives no result for
    it, only a logged error. *)
Lemma C1_no_result_despite_token_input :
  token_input_at Examples.broken_form [0]%nat (py "csrf_token")
  /\ @analyze_form Examples.runtime Examples.broken_form Examples.page_url
     = (Returns None,
        [(ERROR, ErrorAnalyzingForm (mkExn ValueError "Invalid IPv6 URL"))]).
Proof.
  split; [|vm_compute; reflexivity].
  split; [discriminate|]. eexists _, _.
  split; [vm_compute; reflexivity|].
  split; [vm_compute; reflexivity|].
  split; [vm_compute; reflexivity|].
  exists (py "csrf"), [], (py "csrf"), (py "_token").
  split; [apply (list_elem_of_lookup_2 _ 0%nat); reflexivity|].
  split; [reflexivity|].
  repeat constructor; left; reflexivity.
Qed.

(** The search form is analysed without failure; the equivalence holds
    of its result. *)
Lemma C3_has_token_iff_name_witness :
  @analyze_form Examples.runtime Examples.search_form Examples.page_url
  = (Returns (Some (@form_result Examples.runtime Examples.search_form
                      Examples.page_url)), [])
  /\ (has_csrf_token (@form_result Examples.runtime Examples.search_form
                        Examples.page_url) = true
      <-> token_name (@form_result Examples.runtime Examples.search_form
                        Examples.page_url) <> None).
Proof.
  assert (E : @analyze_form Examples.runtime Examples.search_form
                Examples.page_url
              = (Returns (Some (@form_result Examples.runtime
                                  Examples.search_form Examples.page_url)), []))
    by (vm_compute; reflexivity).
  split; [exact E|].
  exact (@C3_has_token_iff_name Examples.runtime _ _ _ _ E).
Defined.


(** The token name reported for the login form contains a keyword. *)
Lemma C10_token_name_matches_pattern_witness :
  exists name kw,
    token_name (@form_result Examples.runtime Examples.login_form
                  (py "https://a.com/submit")) = Some name
    /\ kw ∈ [py "csrf"; py "token"; py "xsrf"; py "authenticity"]
    /\ ci_occurs kw name.
Proof.
  destruct (@C10_token_name_matches_pattern Examples.runtime
              Examples.login_form Examples.page_url
              (@form_result Examples.runtime Examples.login_form
                 (py "https://a.com/submit")) [])
    as (name & kw & Hn & Hkw & Hocc & _).
  - vm_compute. reflexivity.
  - vm_compute. reflexivity.
  - exists name, kw. repeat split; assumption.
Defined.

(** ** The method field *)

Section method_field.
Context `{Runtime}.

Lemma upper_ascii (m : pystr) :
  isascii m = true -> upper m = ascii_upper <$> m.
Proof.
  induction m as [|c m IH]; [reflexivity|].
  intros E. apply andb_prop in E as [Ec Em].
  change (upper (c :: m))
    with ((if is_ascii c then [ascii_upper c] else unicode_upper c) ++ upper m).
  rewrite Ec, (IH Em). reflexivity.
Qed.

Lemma ascii_upper_not_lower c : is_ascii_lower (ascii_upper c) = false.
Proof.
  unfold ascii_upper, is_ascii_lower.
  destruct (N.leb_spec 97 c); destruct (N.leb_spec c 122); cbn [andb];
    repeat match goal with
           | |- context [N.leb ?a ?b] => destruct (N.leb_spec a b); cbn [andb]
           end; try reflexivity; lia.
Qed.

(** C5 (as the code has it). The method field is the upper-cased [method]
    attribute, whatever its value, and "GET" when the form has none. For an
    ASCII attribute value no lower-case letter is left. *)
Theorem C5_method_is_uppercased_attribute form url r l :
  analyze_form form url = (Returns (Some r), l) ->
  method r = upper (tag_get_default form (py "method") (py "GET"))
  /\ (tag_get form (py "method") = None -> method r = py "GET")
  /\ (forall m, tag_get form (py "method") = Some m -> isascii m = true ->
        method r = ascii_upper <$> m
        /\ Forall (fun c => is_ascii_lower c = false) (method r)).
Proof.
  intros E. apply analyze_form_Some in E as (a & _ & -> & _).
  unfold form_result; cbn [method]. unfold tag_get_default.
  split; [reflexivity|]. split.
  - intros ->. reflexivity.
  - intros m -> Hm. change (default (py "GET") (Some m)) with m.
    rewrite (upper_ascii _ Hm).
    split; [reflexivity|]. apply Forall_fmap, Forall_forall.
    intros c _. apply ascii_upper_not_lower.
Qed.

End method_field.

(** The search form has no [method]: its method field is "GET". *)
Lemma C5_method_is_uppercased_attribute_witness :
  method (@form_result Examples.runtime Examples.search_form Examples.page_url)
  = py "GET".
Proof.
  refine (proj1 (proj2 (@C5_method_is_uppercased_attribute Examples.runtime
            Examples.search_form Examples.page_url _ [] _)) _);
    vm_compute; reflexivity.
Defined.

(** C5 as stated fails: the form of an HTML dialog is analysed without
    failure and its method field is "DIALOG", which is no HTTP verb. *)
Lemma C5_method_not_always_http_verb :
  exists r,
    @analyze_form Examples.runtime Examples.dialog_form Examples.page_url
    = (Returns (Some r), [])
    /\ method r = py "DIALOG"
    /\ method r ∉ http_methods.
Proof.
  eexists. split; [vm_compute; reflexivity|]. split; [reflexivity|].
  cbn [method]. intros Hin. unfold http_methods in Hin.
  repeat (apply elem_of_cons in Hin as [Hin|Hin]; [discriminate|]).
  inversion Hin.
Qed.

(** ** Failures stay inside their component *)

Section containment.
Context `{Runtime}.

Lemma report_form_returns url i form :
  fst (report_form url i form) = Returns tt.
Proof.
  unfold report_form. rewrite analyze_form_unfold.
  destruct (urllib_parse.urljoin _ _) as [a|e]; cbn; [|reflexivity].
  destruct (bool_decide _); reflexivity.
Qed.

Lemma report_forms_returns url i forms :
  fst (report_forms url i forms) = Returns tt.
Proof.
  revert i. induction forms as [|f forms IH]; intros i; [reflexivity|].
  cbn [report_forms]. unfold bind.
  pose proof (report_form_returns url i f) as Hf.
  destruct (report_form url i f) as [o1 l1]. cbn in Hf. subst o1.
  specialize (IH (S i)).
  destruct (report_forms url (S i) forms) as [o2 l2]. exact IH.
Qed.

Lemma report_forms_cons url i f forms :
  report_forms url i (f :: forms) =
  (Returns tt,
   snd (report_form url i f) ++ snd (report_forms url (S i) forms)).
Proof.
  cbn [report_forms]. unfold bind.
  pose proof (report_form_returns url i f) as Hf.
  pose proof (report_forms_returns url (S i) forms) as Hfs.
  destruct (report_form url i f) as [o1 l1]. cbn in Hf. subst o1.
  destruct (report_forms url (S i) forms) as [o2 l2]. cbn in Hfs. subst o2.
  reflexivity.
Qed.


Lemma get_forms_unfold url :
  get_forms url =
  match requests_get url with
  | Err e =>
      (Returns [],
       [(ERROR, if is_RequestException (exn_class e)
                then ErrorFetchingURL e else ErrorParsingHTML e)])
  | Ok resp =>
      match raise_for_status resp with
      | Err e => (Returns [], [(ERROR, ErrorFetchingURL e)])
      | Ok _ =>
          match BeautifulSoup (content resp) with
          | Err e =>
              (Returns [],
               [(ERROR, if is_RequestException (exn_class e)
                        then ErrorFetchingURL e else ErrorParsingHTML e)])
          | Ok soup => (Returns (find_all soup (py "form")), [])
          end
      end
  end.
Proof.
  unfold get_forms.
  destruct (requests_get url) as [resp|e]; cbn.
  - unfold raise_for_status.
    destruct (_ && _); [reflexivity|]. destruct (_ && _); [reflexivity|].
    cbn. destruct (BeautifulSoup _) as [soup|e]; cbn; [reflexivity|].
    destruct (is_RequestException _); reflexivity.
  - destruct (is_RequestException _); reflexivity.
Qed.

Lemma get_forms_returns url :
  exists forms l, get_forms url = (Returns forms, l).
Proof.
  rewrite get_forms_unfold.
  destruct (requests_get url) as [resp|e]; [|eauto].
  destruct (raise_for_status resp); [|eauto].
  destruct (BeautifulSoup _); eauto.
Qed.

Lemma raise_for_status_spec resp :
  (400 <= status_code resp < 600 ->
   exists e, raise_for_status resp = Err e /\ exn_class e = HTTPError)
  /\ (~ 400 <= status_code resp < 600 -> raise_for_status resp = Ok tt).
Proof.
  unfold raise_for_status.
  destruct (Z.leb_spec 400 (status_code resp));
    destruct (Z.ltb_spec (status_code resp) 500);
    destruct (Z.leb_spec 500 (status_code resp));
    destruct (Z.ltb_spec (status_code resp) 600); cbn [andb];
    (split; [intros ?; try lia; eexists; split; reflexivity
            |intros ?; try lia; reflexivity]).
Qed.

(** C7 (as the code has it). [get_forms] always returns a list. When the
    request raises, when the status is in 400..599, and when the parser
    raises, the list is empty and one ERROR record is logged; for every
    other response, that is for every status outside 400..599 (all of 2xx
    and 3xx among them), the forms of the parsed body are returned. A
    non-empty list is returned in no other way. *)
Theorem C7_get_forms_never_raises url :
  (exists forms l, get_forms url = (Returns forms, l))
  /\ (forall e, requests_get url = Err e ->
        get_forms url =
        (Returns [],
         [(ERROR, if is_RequestException (exn_class e)
                  then ErrorFetchingURL e else ErrorParsingHTML e)]))
  /\ (forall resp, requests_get url = Ok resp ->
        400 <= status_code resp < 600 ->
        exists e, exn_class e = HTTPError
                  /\ get_forms url = (Returns [], [(ERROR, ErrorFetchingURL e)]))
  /\ (forall resp e, requests_get url = Ok resp ->
        ~ 400 <= status_code resp < 600 ->
        BeautifulSoup (content resp) = Err e ->
        exists m, get_forms url = (Returns [], [(ERROR, m)]))
  /\ (forall resp soup, requests_get url = Ok resp ->
        ~ 400 <= status_code resp < 600 ->
        BeautifulSoup (content resp) = Ok soup ->
        get_forms url = (Returns (find_all soup (py "form")), []))
  /\ (forall forms l, get_forms url = (Returns forms, l) -> forms <> [] ->
        exists resp soup,
          requests_get url = Ok resp
          /\ ~ 400 <= status_code resp < 600
          /\ BeautifulSoup (content resp) = Ok soup
          /\ forms = find_all soup (py "form") /\ l = []).
Proof.
  rewrite get_forms_unfold.
  destruct (requests_get url) as [resp|e] eqn:Eg.
  - destruct (raise_for_status_spec resp) as [Hbad Hgood].
    destruct (raise_for_status resp) as [[]|e] eqn:Er.
    + assert (Hst : ~ 400 <= status_code resp < 600).
      { intros C. destruct (Hbad C) as (e & Ee & _). discriminate. }
      destruct (BeautifulSoup (content resp)) as [soup|e] eqn:Eb.
      * repeat split; eauto; try discriminate.
        -- intros resp' Er' C. injection Er' as <-. contradiction.
        -- intros resp' e Er' _ C. injection Er' as <-. congruence.
        -- intros resp' soup' Er' _ C. injection Er' as <-. congruence.
        -- intros forms l E _. injection E as <- <-. eauto 10.
      * repeat split; eauto; try discriminate.
        -- intros resp' Er' C. injection Er' as <-. contradiction.
        -- intros resp' e' Er' _ C. injection Er' as <-. congruence.
        -- intros forms l E Hne. injection E as <- <-. contradiction.
    + assert (Hst : 400 <= status_code resp < 600).
      { destruct (decide (400 <= status_code resp < 600)) as [C|C];
          [exact C|]. specialize (Hgood C). discriminate. }
      destruct (Hbad Hst) as (e' & Ee' & Hc).
      assert (e' = e) as -> by congruence.
      repeat split; eauto; try discriminate.
      * intros resp' soup Er' C. injection Er' as <-. contradiction.
      * intros forms l E Hne. injection E as <- <-. contradiction.
  - repeat split; eauto; try discriminate.
    + intros e' E. injection E as <-. reflexivity.
    + intros forms l E Hne. injection E as <- <-. contradiction.
Qed.

(** C7 as stated fails: a response with status 999, which is neither 2xx
    nor 3xx, is not an error for [raise_for_status]; its body is parsed
    and its forms are returned, with nothing logged. *)
Lemma C7_forms_returned_outside_2xx_3xx :
  @requests_get Examples.runtime (py "https://a.com/denied")
  = Ok (mkResponse 999 Examples.body)
  /\ ~ (200 <= 999 < 400)
  /\ @get_forms Examples.runtime (py "https://a.com/denied")
     = (Returns [Examples.login_form; Examples.broken_form;
                 Examples.search_form], []).
Proof.
  split; [vm_compute; reflexivity|]. split; [lia|].
  vm_compute. reflexivity.
Qed.


(** C6. The exit status is 1 exactly when the URL fails validation and 0
    exactly when it passes: nothing that happens after validation (a
    failed fetch, a page without forms, forms that cannot be analysed)
    changes it. *)
Theorem C6_exit_code_reflects_validation_only args :
  (exit_code (main args) = 1
   <-> validate_url (arg_url args) = (Returns false, []))
  /\ (exit_code (main args) = 0
      <-> validate_url (arg_url args) = (Returns true, [])).
Proof.
  unfold main. rewrite validate_url_unfold.
  destruct (match urllib_parse.urlparse _ _ with Ok _ => _ | Err _ => _ end).
  - destruct (get_forms_returns (arg_url args)) as (forms & l & Eg).
    cbn. rewrite Eg. cbn.
    pose proof (report_forms_returns (arg_url args) 0 forms) as Hr.
    destruct forms as [|f forms].
    + cbn. split; split; intros; try reflexivity; discriminate.
    + destruct (report_forms (arg_url args) 0 (f :: forms)) as [o l'].
      cbn in Hr. subst o.
      cbn. split; split; intros; try reflexivity; discriminate.
  - cbn. split; split; intros; try reflexivity; discriminate.
Qed.

End containment.

(** ** URL resolution *)

Lemma N_below_128 (c : N) :
  (c < 128)%N -> In c (N.of_nat <$> seq 0 128).
Proof.
  intros Hc. rewrite <- (N2Nat.id c). apply in_map, in_seq. lia.
Qed.

Lemma scheme_chars_spec c :
  contains c urllib_parse.scheme_chars = is_scheme_char c.
Proof.
  destruct (N.ltb_spec c 128) as [Hc|Hc].
  - apply N_below_128 in Hc.
    assert (E : forallb (fun c => eqb (contains c urllib_parse.scheme_chars)
                                      (is_scheme_char c))
                  (N.of_nat <$> seq 0 128) = true) by (vm_compute; reflexivity).
    rewrite forallb_forall in E. apply eqb_prop, E, Hc.
  - transitivity false.
    + destruct (contains c urllib_parse.scheme_chars) eqn:E; [|reflexivity].
      apply existsb_exists in E as (x & Hin & Hx). apply N.eqb_eq in Hx.
      subst x. exfalso.
      assert (F : forallb (fun x => (x <? 128)%N) urllib_parse.scheme_chars
                  = true) by (vm_compute; reflexivity).
      rewrite forallb_forall in F. apply F, N.ltb_lt in Hin. lia.
    + unfold is_scheme_char, is_ascii_lower, is_ascii_upper, is_ascii_digit.
      symmetry.
      repeat match goal with
             | |- context [N.leb ?a ?b] => destruct (N.leb_spec a b)
             | |- context [N.eqb ?a ?b] => destruct (N.eqb_spec a b)
             end; cbn; try reflexivity; lia.
Qed.

Lemma ascii_lower_scheme_char c :
  is_scheme_char c = true ->
  is_scheme_char (ascii_lower c) && negb (is_ascii_upper (ascii_lower c))
  = true.
Proof.
  intros Hc. unfold ascii_lower.
  destruct (is_ascii_upper c) eqn:Eu; bool_lia.
Qed.

Lemma ascii_lower_alpha c :
  is_ascii_alpha c = true -> is_ascii_lower (ascii_lower c) = true.
Proof.
  intros Hc. unfold ascii_lower.
  destruct (is_ascii_upper c) eqn:Eu; bool_lia.
Qed.

Lemma contains_C0 c :
  contains c urllib_parse._WHATWG_C0_CONTROL_OR_SPACE = true -> (c <= 32)%N.
Proof.
  intros E. apply existsb_exists in E as (x & Hin & Hx).
  apply N.eqb_eq in Hx. subst x.
  apply in_map_iff in Hin as (n & <- & Hn). apply in_seq in Hn. lia.
Qed.

Lemma scheme_char_not_C0 c :
  is_scheme_char c = true ->
  contains c urllib_parse._WHATWG_C0_CONTROL_OR_SPACE = false.
Proof.
  intros Hc.
  destruct (contains c urllib_parse._WHATWG_C0_CONTROL_OR_SPACE) eqn:E;
    [|reflexivity].
  apply contains_C0 in E. bool_lia.
Qed.

Lemma lstrip_id chars (s : pystr) :
  match s with c :: _ => contains c chars = false | [] => True end ->
  lstrip chars s = s.
Proof. destruct s as [|c s]; [reflexivity|]. cbn. intros ->. reflexivity. Qed.

Lemma remove_unsafe_unfold s :
  urllib_parse.remove_unsafe s =
  remove_char 10 (remove_char 13 (remove_char 9 s)).
Proof. reflexivity. Qed.

Lemma remove_unsafe_cons c s :
  is_scheme_char c = true \/ c = chr ":" ->
  urllib_parse.remove_unsafe (c :: s) = c :: urllib_parse.remove_unsafe s.
Proof.
  intros Hc. rewrite !remove_unsafe_unfold. unfold remove_char.
  assert (N.eqb c 9 = false /\ N.eqb c 13 = false /\ N.eqb c 10 = false)
    as (E1 & E2 & E3) by (destruct Hc as [Hc| ->]; [bool_lia|repeat split]).
  cbn [List.filter]. rewrite E1. cbn [negb List.filter].
  rewrite E2. cbn [negb List.filter]. rewrite E3. reflexivity.
Qed.

Lemma remove_unsafe_scheme s rest :
  forallb is_scheme_char s = true ->
  urllib_parse.remove_unsafe (s ++ chr ":" :: rest)
  = s ++ chr ":" :: urllib_parse.remove_unsafe rest.
Proof.
  induction s as [|c s IH]; intros Hs.
  - cbn [app]. apply remove_unsafe_cons. right. reflexivity.
  - cbn [forallb] in Hs. apply andb_prop in Hs as [Hc Hs].
    cbn [app]. rewrite remove_unsafe_cons by (left; exact Hc).
    rewrite (IH Hs). reflexivity.
Qed.

Lemma remove_unsafe_id s :
  forallb is_scheme_char s = true -> urllib_parse.remove_unsafe s = s.
Proof.
  induction s as [|c s IH]; intros Hs; [reflexivity|].
  cbn [forallb] in Hs. apply andb_prop in Hs as [Hc Hs].
  rewrite remove_unsafe_cons by (left; exact Hc). rewrite (IH Hs). reflexivity.
Qed.

Lemma find_from_scheme s rest i :
  forallb is_scheme_char s = true ->
  find_from (chr ":") (s ++ chr ":" :: rest) i = Some (i + length s)%nat.
Proof.
  revert i. induction s as [|c s IH]; intros i Hs.
  - cbn. f_equal. lia.
  - cbn [forallb] in Hs. apply andb_prop in Hs as [Hc Hs].
    cbn [app find_from length].
    assert (N.eqb c (chr ":") = false) as -> by bool_lia.
    rewrite (IH _ Hs). f_equal. lia.
Qed.

Lemma parsed_scheme_chars s :
  is_parsed_scheme s = true -> forallb is_scheme_char s = true.
Proof.
  unfold is_parsed_scheme. intros E. apply andb_prop in E as [_ E].
  rewrite forallb_forall in *. intros c Hc. specialize (E c Hc).
  apply andb_prop in E as [E _]. exact E.
Qed.

Lemma strip_parsed_scheme s :
  is_parsed_scheme s = true ->
  urllib_parse.remove_unsafe
    (strip urllib_parse._WHATWG_C0_CONTROL_OR_SPACE s) = s.
Proof.
  intros Hs. pose proof (parsed_scheme_chars s Hs) as Hc.
  assert (Hall : forall l : pystr,
            forallb is_scheme_char l = true ->
            lstrip urllib_parse._WHATWG_C0_CONTROL_OR_SPACE l = l).
  { intros l Hl. apply lstrip_id. destruct l as [|c l]; [exact I|].
    cbn [forallb] in Hl. apply andb_prop in Hl as [Hl _].
    apply scheme_char_not_C0, Hl. }
  unfold strip, rstrip. rewrite (Hall s Hc).
  rewrite Hall, rev_involutive; [apply remove_unsafe_id, Hc|].
  rewrite forallb_forall in *. intros c Hin. apply Hc, in_rev, Hin.
Qed.

(** A parsed scheme followed by a colon is found again as the scheme. *)
Lemma has_scheme_intro s rest :
  is_parsed_scheme s = true -> has_scheme (s ++ chr ":" :: rest) = true.
Proof.
  intros Hs. pose proof (parsed_scheme_chars s Hs) as Hc.
  unfold has_scheme, cleaned. rewrite lstrip_id.
  2:{ destruct s as [|c s]; [discriminate|]. cbn [app].
      cbn [forallb] in Hc. apply andb_prop in Hc as [Hc _].
      apply scheme_char_not_C0, Hc. }
  rewrite (remove_unsafe_scheme _ _ Hc).
  unfold urllib_parse.split_scheme, find.
  rewrite (find_from_scheme _ _ _ Hc). cbn [Nat.add].
  rewrite take_app_length.
  assert (E1 : Nat.ltb 0 (length s) = true).
  { destruct s; [discriminate|]. reflexivity. }
  assert (E2 : match s ++ chr ":" :: urllib_parse.remove_unsafe rest with
               | c :: _ => is_ascii c && is_ascii_alpha c
               | [] => false
               end = true).
  { destruct s as [|c s]; [discriminate|]. cbn [app].
    unfold is_parsed_scheme in Hs. apply andb_prop in Hs as [Hs _]. bool_lia. }
  assert (E3 : forallb (fun c => contains c urllib_parse.scheme_chars) s
               = true).
  { rewrite forallb_forall in *. intros c Hin.
    rewrite scheme_chars_spec. apply Hc, Hin. }
  rewrite E1, E2, E3. reflexivity.
Qed.


Section resolution.
Context `{Runtime}.

Lemma urlparse_scheme url d r :
  urllib_parse.urlparse url d = Ok r ->
  urllib_parse.scheme r =
  match urllib_parse.split_scheme (cleaned url) with
  | Some (s, _) => s
  | None =>
      urllib_parse.remove_unsafe
        (strip urllib_parse._WHATWG_C0_CONTROL_OR_SPACE d)
  end.
Proof.
  unfold urllib_parse.urlparse, urllib_parse.urlsplit, rbind, cleaned.
  intros E. repeat case_match; simplify_eq; reflexivity.
Qed.

Lemma urlparse_default_irrelevant url d1 d2 :
  urllib_parse.split_scheme (cleaned url) <> None ->
  urllib_parse.urlparse url d1 = urllib_parse.urlparse url d2.
Proof.
  unfold urllib_parse.urlparse, urllib_parse.urlsplit, cleaned.
  destruct (urllib_parse.split_scheme _) as [[s rest]|];
    [reflexivity|contradiction].
Qed.

Lemma split_scheme_parsed u s rest :
  urllib_parse.split_scheme u = Some (s, rest) -> is_parsed_scheme s = true.
Proof.
  unfold urllib_parse.split_scheme.
  destruct (find (chr ":") u) as [i|]; [|discriminate].
  destruct (Nat.ltb 0 i) eqn:Ei; [|discriminate].
  destruct u as [|c u]; [discriminate|].
  destruct (is_ascii c && is_ascii_alpha c) eqn:Ec; [|discriminate].
  destruct (forallb _ _) eqn:Ef; [|discriminate].
  cbn [andb]. intros E. injection E as <- _.
  apply Nat.ltb_lt in Ei. destruct i as [|i]; [lia|].
  unfold is_parsed_scheme. cbn [take fmap list_fmap].
  apply andb_prop in Ec as [_ Ec]. rewrite (ascii_lower_alpha _ Ec).
  cbn [andb]. change (ascii_lower c :: (ascii_lower <$> take i u))
    with (ascii_lower <$> take (S i) (c :: u)).
  rewrite forallb_forall in *. intros x Hx.
  apply in_map_iff in Hx as (y & <- & Hy).
  apply ascii_lower_scheme_char. rewrite <- scheme_chars_spec. apply Ef, Hy.
Qed.

Lemma has_scheme_cleaned u :
  has_scheme u = true <-> urllib_parse.split_scheme (cleaned u) <> None.
Proof.
  unfold has_scheme. destruct (urllib_parse.split_scheme _); split;
    congruence.
Qed.

(** What validation guarantees about the page URL. *)
Lemma valid_page_url url b :
  urllib_parse.urlparse url [] = Ok b ->
  urllib_parse.scheme b <> [] ->
  url <> [] /\ has_scheme url = true
  /\ is_parsed_scheme (urllib_parse.scheme b) = true.
Proof.
  intros Eb Hs. pose proof (urlparse_scheme _ _ _ Eb) as E.
  split; [|split].
  - intros ->. apply Hs. rewrite E. reflexivity.
  - unfold has_scheme. destruct (urllib_parse.split_scheme _); [reflexivity|].
    contradiction.
  - destruct (urllib_parse.split_scheme _) as [[s rest]|] eqn:Es;
      [|contradiction].
    rewrite E. apply (split_scheme_parsed _ _ _ Es).
Qed.

Lemma urlunparse_shape p :
  truthy (urllib_parse.scheme p) = true ->
  exists rest,
    urllib_parse.urlunparse p = urllib_parse.scheme p ++ chr ":" :: rest.
Proof.
  intros Hs. unfold urllib_parse.urlunparse, urllib_parse.urlunsplit.
  rewrite Hs.
  repeat match goal with
         | |- context [if ?b then _ else _] => destruct b
         end;
    repeat rewrite <- app_assoc; repeat rewrite <- app_comm_cons;
    eexists; reflexivity.
Qed.

Lemma uses_relative_netloc s :
  urllib_parse.str_in s urllib_parse.uses_relative = true ->
  urllib_parse.str_in s urllib_parse.uses_netloc = true.
Proof.
  unfold urllib_parse.str_in. rewrite !bool_decide_eq_true. intros Hin.
  unfold urllib_parse.uses_relative in Hin.
  cbn [fmap list_fmap] in Hin.
  repeat (apply elem_of_cons in Hin as [->|Hin];
          [apply (bool_decide_eq_true_1 _); vm_compute; reflexivity|]).
  inversion Hin.
Qed.

Lemma str_eqb_eq (a b : pystr) : str_eqb a b = true <-> a = b.
Proof. apply bool_decide_eq_true. Qed.

(** The three ways [urljoin] produces its result for a non-empty base. *)
Lemma urljoin_cases base url a :
  truthy base = true ->
  urllib_parse.urljoin base url = Ok a ->
  (url = [] /\ a = base)
  \/ exists b u,
       urllib_parse.urlparse base [] = Ok b
       /\ urllib_parse.urlparse url (urllib_parse.scheme b) = Ok u
       /\ (((urllib_parse.scheme u <> urllib_parse.scheme b
             \/ urllib_parse.str_in (urllib_parse.scheme u)
                  urllib_parse.uses_relative = false)
            /\ a = url)
           \/ (urllib_parse.scheme u = urllib_parse.scheme b
               /\ urllib_parse.str_in (urllib_parse.scheme u)
                    urllib_parse.uses_relative = true
               /\ exists p, a = urllib_parse.urlunparse p
                            /\ urllib_parse.scheme p = urllib_parse.scheme u)).
Proof.
  intros Hb. unfold urllib_parse.urljoin. rewrite Hb. cbn [negb].
  destruct url as [|c url]; [intros E; injection E as <-; left; auto|].
  cbn [truthy negb].
  intros E. right.
  destruct (urllib_parse.urlparse base []) as [b|e] eqn:Eb; [|discriminate].
  cbn [rbind] in E.
  destruct (urllib_parse.urlparse (c :: url) _) as [u|e] eqn:Eu;
    [|discriminate].
  cbn [rbind] in E. exists b, u.
  split; [reflexivity|]. split; [exact Eu|].
  destruct (str_eqb (urllib_parse.scheme u) (urllib_parse.scheme b)) eqn:Es.
  - apply str_eqb_eq in Es.
    destruct (urllib_parse.str_in (urllib_parse.scheme u)
                urllib_parse.uses_relative) eqn:Er.
    + right. split; [exact Es|]. split; [reflexivity|].
      cbn [negb orb] in E.
      repeat case_match; simplify_eq; eexists; split; reflexivity.
    + left. cbn [negb orb] in E. injection E as <-. auto.
  - left. cbn [negb orb] in E. injection E as <-. split; [|reflexivity].
    left. intros C. apply str_eqb_eq in C. congruence.
Qed.

End resolution.

(** ** Scenarios *)

Section scenarios.
Import Examples.

Example scenario_invalid_url :
  @main runtime (mkArgs (py "not-a-url") false)
  = (Exits 1, [(ERROR, InvalidURLProvided)]).
Proof. vm_compute. reflexivity. Qed.

Example scenario_no_forms :
  @main runtime (mkArgs (py "https://a.com/empty") false)
  = (Exits 0, [(INFO, AnalyzingURL (py "https://a.com/empty"));
               (INFO, NoFormsFound)]).
Proof. vm_compute. reflexivity. Qed.

Example scenario_http_error :
  @main runtime (mkArgs (py "https://a.com/missing") true)
  = (Exits 0, [(INFO, AnalyzingURL (py "https://a.com/missing"));
               (ERROR, ErrorFetchingURL (mkExn HTTPError "Client Error"));
               (INFO, NoFormsFound)]).
Proof. vm_compute. reflexivity. Qed.

Example scenario_unparsable_body :
  @get_forms runtime (py "https://a.com/garbled")
  = (Returns [],
     [(ERROR, ErrorParsingHTML (mkExn OtherException "parser failure"))]).
Proof. vm_compute. reflexivity. Qed.

Example scenario_unreachable :
  @get_forms runtime (py "https://b.org/")
  = (Returns [],
     [(ERROR, ErrorFetchingURL (mkExn ConnectionError "connection refused"))]).
Proof. vm_compute. reflexivity. Qed.

(** The second form of the login page cannot be analysed; the third one is
    reported all the same, and the run ends normally. *)
Example scenario_login_page :
  @main runtime (mkArgs page_url false)
  = (Returns tt,
     [(INFO, AnalyzingURL page_url);
      (INFO, AnalyzingForm 1);
      (INFO, MethodIs (py "POST"));
      (INFO, ActionIs (py "https://a.com/submit"));
      (INFO, TokenPresentYes (Some (py "my_ToKeN")));
      (INFO, AnalyzingForm 2);
      (ERROR, ErrorAnalyzingForm (mkExn ValueError "Invalid IPv6 URL"));
      (ERROR, FailedToAnalyzeForm 2);
      (INFO, AnalyzingForm 3);
      (INFO, MethodIs (py "GET"));
      (INFO, ActionIs (py "https://a.com/login"));
      (WARNING, TokenPresentNo);
      (WARNING, PotentialVulnerability)]).
Proof. vm_compute. reflexivity. Qed.

(** The pattern matches regardless of case, and Kelvin's K counts as a k. *)
Example scenario_pattern :
  re.search (py "X-CSRF") = true
  /\ re.search (py "Authenticity_Token") = true
  /\ re.search (py "to" ++ [8490%N] ++ py "en") = true
  /\ re.search (py "user_id") = false
  /\ re.search (py "tok") = false.
Proof. vm_compute. repeat split. Qed.

End scenarios.

(** * Further properties of the program *)

(** ** The report of a run *)

Section run_report.
Context `{Runtime}.

Lemma report_forms_imap url i forms :
  snd (report_forms url i forms)
  = concat (imap (fun k form => snd (report_form url (i + k) form)) forms).
Proof.
  revert i. induction forms as [|f forms IH]; intros i; [reflexivity|].
  rewrite report_forms_cons. cbn [snd imap concat].
  rewrite Nat.add_0_r. f_equal. rewrite IH. f_equal.
  apply imap_ext. intros k x _. cbn beta.
  replace (S i + k)%nat with (i + S k)%nat by lia. reflexivity.
Qed.

(** What [main] logs for one form. *)
Lemma report_form_log url i form :
  snd (report_form url i form) =
  (INFO, AnalyzingForm (i + 1))
  :: match urllib_parse.urljoin url (form_action_arg form url) with
     | Ok a =>
         [(INFO, MethodIs (method (form_result form a)));
          (INFO, ActionIs a)]
         ++ (if has_csrf_token (form_result form a)
             then [(INFO, TokenPresentYes (token_name (form_result form a)))]
             else [(WARNING, TokenPresentNo);
                   (WARNING, PotentialVulnerability)])
     | Err e =>
         [(ERROR, ErrorAnalyzingForm e);
          (ERROR, FailedToAnalyzeForm (i + 1))]
     end.
Proof.
  unfold report_form. rewrite analyze_form_unfold.
  destruct (urllib_parse.urljoin _ _) as [a|e]; [|reflexivity].
  cbn. destruct (bool_decide _); reflexivity.
Qed.

Lemma verdict_unfold form url :
  verdict form url =
  match urllib_parse.urljoin url (form_action_arg form url) with
  | Ok a => if has_csrf_token (form_result form a)
            then Protected else Unprotected
  | Err _ => Failed
  end.
Proof.
  unfold verdict. rewrite analyze_form_unfold.
  destruct (urllib_parse.urljoin _ _); reflexivity.
Qed.

(** What [get_forms] may log. *)
Lemma get_forms_log url forms l :
  get_forms url = (Returns forms, l) ->
  l = []
  \/ (forms = []
      /\ exists e, l = [(ERROR, ErrorFetchingURL e)]
                   \/ l = [(ERROR, ErrorParsingHTML e)]).
Proof.
  rewrite get_forms_unfold.
  destruct (requests_get url) as [resp|e].
  - destruct (raise_for_status resp) as [[]|e].
    + destruct (BeautifulSoup _) as [soup|e]; intros E; injection E as <- <-;
        [left; reflexivity|right].
      split; [reflexivity|]. exists e.
      destruct (is_RequestException _); auto.
    + intros E; injection E as <- <-. right. eauto.
  - intros E; injection E as <- <-. right. split; [reflexivity|]. exists e.
    destruct (is_RequestException _); auto.
Qed.

Lemma main_invalid args :
  validate_url (arg_url args) = (Returns false, []) ->
  main args = (Exits 1, [(ERROR, InvalidURLProvided)]).
Proof. unfold main. intros ->. reflexivity. Qed.

Lemma main_valid args forms l :
  validate_url (arg_url args) = (Returns true, []) ->
  get_forms (arg_url args) = (Returns forms, l) ->
  main args =
  match forms with
  | [] => (Exits 0,
           (INFO, AnalyzingURL (arg_url args)) :: l ++ [(INFO, NoFormsFound)])
  | _ => (Returns tt,
          (INFO, AnalyzingURL (arg_url args))
          :: l ++ snd (report_forms (arg_url args) 0 forms))
  end.
Proof.
  unfold main. intros -> Eg. cbn. rewrite Eg.
  pose proof (report_forms_returns (arg_url args) 0 forms) as Hr.
  destruct forms as [|f forms]; [reflexivity|].
  cbn [bind].
  destruct (report_forms (arg_url args) 0 (f :: forms)) as [o l'].
  cbn in Hr. subst o. reflexivity.
Qed.

(** X1. The layout of the report. An invalid URL gives one ERROR record and
    exit status 1. Otherwise the log opens with the URL, continues with
    whatever [get_forms] logged, and ends either with the notice that no
    forms were found (exit status 0) or with the reports of the forms, one
    after the other in the order [get_forms] returned them. *)
Theorem main_report_layout args :
  (validate_url (arg_url args) = (Returns false, []) ->
   main args = (Exits 1, [(ERROR, InvalidURLProvided)]))
  /\ (validate_url (arg_url args) = (Returns true, []) ->
      forall forms l,
        get_forms (arg_url args) = (Returns forms, l) ->
        main args =
        match forms with
        | [] =>
            (Exits 0,
             (INFO, AnalyzingURL (arg_url args))
             :: l ++ [(INFO, NoFormsFound)])
        | _ =>
            (Returns tt,
             (INFO, AnalyzingURL (arg_url args))
             :: l ++ concat (imap (fun k form =>
                                     snd (report_form (arg_url args) k form))
                               forms))
        end).
Proof.
  split; [apply main_invalid|].
  intros Hv forms l Eg. rewrite (main_valid _ _ _ Hv Eg).
  rewrite report_forms_imap. reflexivity.
Qed.

Lemma announced_report_forms url i forms :
  announced_forms (snd (report_forms url i forms))
  = seq (i + 1) (length forms).
Proof.
  revert i. induction forms as [|f forms IH]; intros i; [reflexivity|].
  rewrite report_forms_cons. cbn [snd length seq].
  unfold announced_forms in *. rewrite omap_app, IH, report_form_log.
  replace (S i + 1)%nat with (S (i + 1)) by lia.
  destruct (urllib_parse.urljoin _ _) as [a|e]; cbn; [|reflexivity].
  destruct (bool_decide _); reflexivity.
Qed.

(** X2. Forms are numbered from 1, in the order [get_forms] returned them:
    the run announces exactly the numbers 1, 2, ..., n. *)
Theorem forms_numbered_from_one args forms l :
  validate_url (arg_url args) = (Returns true, []) ->
  get_forms (arg_url args) = (Returns forms, l) ->
  announced_forms (snd (main args)) = seq 1 (length forms).
Proof.
  intros Hv Eg. rewrite (main_valid _ _ _ Hv Eg).
  destruct (get_forms_log _ _ _ Eg) as [-> | [-> (e & [-> | ->])]];
    try reflexivity.
  destruct forms as [|f forms]; [reflexivity|].
  cbn [snd app]. unfold announced_forms. cbn [omap snd].
  apply (announced_report_forms (arg_url args) 0 (f :: forms)).
Qed.

Lemma count_records_app kind l1 l2 :
  count_records kind (l1 ++ l2)
  = (count_records kind l1 + count_records kind l2)%nat.
Proof.
  unfold count_records. rewrite List.filter_app, length_app. reflexivity.
Qed.

Lemma count_report_forms url i forms :
  count_records is_vulnerability_warning (snd (report_forms url i forms))
  = length (List.filter (has_verdict Unprotected url) forms)
  /\ count_records is_failure_report (snd (report_forms url i forms))
     = length (List.filter (has_verdict Failed url) forms)
  /\ count_records is_token_report (snd (report_forms url i forms))
     = length (List.filter (has_verdict Protected url) forms).
Proof.
  revert i. induction forms as [|f forms IH]; intros i;
    [repeat split|].
  rewrite report_forms_cons. cbn [snd List.filter].
  rewrite !count_records_app.
  destruct (IH (S i)) as (-> & -> & ->).
  unfold has_verdict. rewrite verdict_unfold, report_form_log.
  destruct (urllib_parse.urljoin _ _) as [a|e]; [|repeat split].
  destruct (has_csrf_token _); repeat split.
Qed.

(** X3. One warning of a potential vulnerability is logged per form that was
    analysed and has no token field, one failure report per form that
    could not be analysed, and one token report per form that has a token
    field: no form is counted twice or dropped. *)
Theorem one_verdict_per_form args forms l :
  validate_url (arg_url args) = (Returns true, []) ->
  get_forms (arg_url args) = (Returns forms, l) ->
  count_records is_vulnerability_warning (snd (main args))
  = length (List.filter (has_verdict Unprotected (arg_url args)) forms)
  /\ count_records is_failure_report (snd (main args))
     = length (List.filter (has_verdict Failed (arg_url args)) forms)
  /\ count_records is_token_report (snd (main args))
     = length (List.filter (has_verdict Protected (arg_url args)) forms)
  /\ (length (List.filter (has_verdict Unprotected (arg_url args)) forms)
      + length (List.filter (has_verdict Failed (arg_url args)) forms)
      + length (List.filter (has_verdict Protected (arg_url args)) forms)
      = length forms)%nat.
Proof.
  intros Hv Eg. rewrite (main_valid _ _ _ Hv Eg).
  assert (Hsum :
    (length (List.filter (has_verdict Unprotected (arg_url args)) forms)
     + length (List.filter (has_verdict Failed (arg_url args)) forms)
     + length (List.filter (has_verdict Protected (arg_url args)) forms)
     = length forms)%nat).
  { clear. induction forms as [|f forms IH]; [reflexivity|].
    cbn [List.filter length]. unfold has_verdict in *.
    destruct (verdict f (arg_url args)); cbn [length]; lia. }
  destruct (get_forms_log _ _ _ Eg) as [-> | [-> (e & [-> | ->])]];
    [|repeat split..].
  destruct forms as [|f forms]; [repeat split|].
  cbn [snd app].
  destruct (count_report_forms (arg_url args) 0 (f :: forms))
    as (E1 & E2 & E3).
  unfold count_records in *. cbn [List.filter snd] in *.
  cbn [is_vulnerability_warning is_failure_report is_token_report].
  rewrite E1, E2, E3. repeat split. exact Hsum.
Qed.

Lemma report_forms_well_levelled url i forms :
  Forall well_levelled (snd (report_forms url i forms)).
Proof.
  revert i. induction forms as [|f forms IH]; intros i; [constructor|].
  rewrite report_forms_cons. cbn [snd]. apply Forall_app. split; [|apply IH].
  rewrite report_form_log.
  destruct (urllib_parse.urljoin _ _) as [a|e];
    [|repeat constructor].
  constructor; [exact I|]. constructor; [exact I|]. constructor; [exact I|].
  unfold form_result; cbn [has_csrf_token token_name].
  destruct (scan_inputs _) as [name|] eqn:E.
  - rewrite bool_decide_eq_true_2 by discriminate.
    repeat constructor. cbn.
    apply scan_inputs_first in E as (k & inp & _ & Hl & Hn & _).
    apply looks_like_token_named in Hl as (name' & Hn' & Hs & _).
    congruence.
  - rewrite bool_decide_eq_false_2 by (intros C; apply C; reflexivity).
    repeat constructor.
Qed.

Lemma main_well_levelled args : Forall well_levelled (snd (main args)).
Proof.
  pose proof (validate_url_unfold (arg_url args)) as Hv.
  destruct (get_forms_returns (arg_url args)) as (forms & l & Eg).
  destruct (match urllib_parse.urlparse _ _ with Ok _ => _ | Err _ => _ end).
  - rewrite (main_valid _ _ _ Hv Eg).
    assert (Hl : Forall well_levelled l).
    { destruct (get_forms_log _ _ _ Eg) as [-> | [_ (e & [-> | ->])]];
        repeat constructor. }
    destruct forms as [|f forms]; cbn [snd].
    + constructor; [exact I|]. apply Forall_app. split; [exact Hl|].
      repeat constructor.
    + constructor; [exact I|]. apply Forall_app. split; [exact Hl|].
      apply report_forms_well_levelled.
  - rewrite (main_invalid _ Hv). repeat constructor.
Qed.

(** X4. [main] logs nothing at DEBUG level: failures are ERROR records, the
    two findings about a missing token are WARNING records, everything
    else is INFO. The [--verbose] flag therefore reveals no further record
    of the program's own. *)
Theorem main_never_logs_debug args :
  Forall (fun r => fst r <> DEBUG
                   /\ (fst r = WARNING <->
                       snd r = TokenPresentNo
                       \/ snd r = PotentialVulnerability))
    (snd (main args)).
Proof.
  eapply Forall_impl; [apply main_well_levelled|].
  intros [lvl m] Hr. cbn [fst snd].
  destruct lvl, m; cbn in Hr; try contradiction;
    (split; [discriminate|]); split; intros C;
    try discriminate; try destruct C as [C|C]; try discriminate; auto.
Qed.

(** X5. A token report always names a field: the name logged is never [None]
    and never empty, and the pattern matches it. *)
Theorem token_report_names_a_field args :
  Forall (fun r => forall o, snd r = TokenPresentYes o ->
                   exists name, o = Some name /\ name <> []
                                /\ re.search name = true)
    (snd (main args)).
Proof.
  eapply Forall_impl; [apply main_well_levelled|].
  intros [lvl m] Hr o E. cbn [snd] in E. subst m.
  destruct lvl; cbn in Hr; try contradiction.
  destruct o as [name|]; [|contradiction].
  exists name. split; [reflexivity|]. split; [|exact Hr].
  intros ->. rewrite search_empty in Hr. discriminate.
Qed.

End run_report.

(** ** Which elements an analysis looks at *)

Section tree.
Context `{Runtime}.

Lemma descendants_app name attrs cs1 cs2 :
  descendants (Tag name attrs (cs1 ++ cs2))
  = descendants (Tag name attrs cs1) ++ descendants (Tag name attrs cs2).
Proof. cbn [descendants]. apply flat_map_app. Qed.

Lemma descendants_cons name attrs c cs :
  descendants (Tag name attrs (c :: cs))
  = c :: descendants c ++ descendants (Tag name attrs cs).
Proof. reflexivity. Qed.

Lemma find_all_app name attrs cs1 cs2 wanted :
  find_all (Tag name attrs (cs1 ++ cs2)) wanted
  = find_all (Tag name attrs cs1) wanted
    ++ find_all (Tag name attrs cs2) wanted.
Proof. unfold find_all. rewrite descendants_app. apply List.filter_app. Qed.

Lemma descendants_transitive t d e :
  d ∈ descendants t -> e ∈ descendants d -> e ∈ descendants t.
Proof.
  revert d e. induction t as [text|name attrs cs IH]
    using PageElement_children_ind; intros d e Hd He.
  - inversion Hd.
  - cbn [descendants] in *. apply list_elem_of_In, in_flat_map.
    apply list_elem_of_In, in_flat_map in Hd as (c & Hc & Hd).
    exists c. split; [exact Hc|]. right. apply list_elem_of_In.
    destruct Hd as [<- | Hd]; [exact He|].
    rewrite Forall_forall in IH.
    apply (IH c (proj2 (list_elem_of_In _ _) Hc) d e);
      [apply list_elem_of_In, Hd | exact He].
Qed.

Lemma find_all_nested outer inner wanted e :
  inner ∈ descendants outer ->
  e ∈ find_all inner wanted -> e ∈ find_all outer wanted.
Proof.
  unfold find_all. intros Hin He.
  apply list_elem_of_In, filter_In in He as [He Hn].
  apply list_elem_of_In, filter_In. split; [|exact Hn].
  apply list_elem_of_In, (descendants_transitive _ inner);
    [exact Hin | apply list_elem_of_In, He].
Qed.

(** X6. The analysis of a form whose contents are split in two parts reports
    the token field of the first part if it has one, and otherwise that of
    the second part. *)
Theorem token_field_of_split_contents name attrs cs1 cs2 :
  scan_inputs (find_all (Tag name attrs (cs1 ++ cs2)) (py "input")) =
  match scan_inputs (find_all (Tag name attrs cs1) (py "input")) with
  | Some field => Some field
  | None => scan_inputs (find_all (Tag name attrs cs2) (py "input"))
  end.
Proof.
  rewrite find_all_app.
  induction (find_all (Tag name attrs cs1) (py "input")) as [|x l IH];
    [reflexivity|].
  cbn [app]. rewrite !scan_inputs_cons, IH.
  destruct (looks_like_token x) eqn:E; [|reflexivity].
  apply looks_like_token_named in E as (n & -> & _). reflexivity.
Qed.

(** X7. Text is ignored, and so is nesting: an element that is not itself an
    input can be replaced by its contents, and a piece of text removed,
    without changing what [analyze_form] returns or logs. *)
Theorem analysis_ignores_text_and_nesting name attrs pre post url :
  (forall text,
     analyze_form (Tag name attrs (pre ++ NavigableString text :: post)) url
     = analyze_form (Tag name attrs (pre ++ post)) url)
  /\ (forall wrapper wattrs cs,
        wrapper <> py "input" ->
        analyze_form
          (Tag name attrs (pre ++ Tag wrapper wattrs cs :: post)) url
        = analyze_form (Tag name attrs (pre ++ cs ++ post)) url).
Proof.
  split.
  - intros text. rewrite !analyze_form_unfold.
    unfold form_result, form_action_arg, tag_get_default. cbn [tag_get].
    replace (find_all (Tag name attrs (pre ++ NavigableString text :: post))
               (py "input"))
      with (find_all (Tag name attrs (pre ++ post)) (py "input"));
      [reflexivity|].
    rewrite !find_all_app. f_equal.
  - intros wrapper wattrs cs Hw. rewrite !analyze_form_unfold.
    unfold form_result, form_action_arg, tag_get_default. cbn [tag_get].
    replace (find_all (Tag name attrs (pre ++ Tag wrapper wattrs cs :: post))
               (py "input"))
      with (find_all (Tag name attrs (pre ++ cs ++ post)) (py "input"));
      [reflexivity|].
    rewrite !find_all_app. f_equal.
    change (Tag wrapper wattrs cs :: post)
      with ([Tag wrapper wattrs cs] ++ post).
    rewrite find_all_app. f_equal.
    unfold find_all at 2. rewrite descendants_cons. cbn [List.filter tag_name].
    rewrite bool_decide_eq_false_2 by congruence.
    rewrite List.filter_app. cbn [descendants flat_map List.filter].
    rewrite app_nil_r. reflexivity.
Qed.

(** X8. A token field inside a nested form counts for the enclosing form as
    well: if the analysis of a form nested in another finds a token field,
    the analysis of the enclosing form finds one too. *)
Theorem nested_token_counts_for_enclosing_form outer inner url url' ro ri l l' :
  inner ∈ descendants outer ->
  analyze_form inner url' = (Returns (Some ri), l') ->
  analyze_form outer url = (Returns (Some ro), l) ->
  has_csrf_token ri = true -> has_csrf_token ro = true.
Proof.
  intros Hin Ei Eo Hi.
  apply analyze_form_Some in Ei as (ai & _ & -> & _).
  apply analyze_form_Some in Eo as (ao & _ & -> & _).
  unfold form_result in *; cbn [has_csrf_token] in *.
  apply bool_decide_eq_true in Hi. apply bool_decide_eq_true.
  intros Hnone. apply Hi. rewrite scan_inputs_none in *.
  intros e He. apply Hnone, (find_all_nested _ inner); assumption.
Qed.

End tree.

(** ** When the analysis of a form fails, and what a bare fragment gives *)

Section action.
Context `{Runtime}.

Lemma urljoin_raises base url b e :
  truthy base = true ->
  urllib_parse.urlparse base [] = Ok b ->
  (urllib_parse.urljoin base url = Err e
   <-> url <> []
       /\ urllib_parse.urlparse url (urllib_parse.scheme b) = Err e).
Proof.
  intros Hb Eb. unfold urllib_parse.urljoin. rewrite Hb. cbn [negb].
  destruct url as [|c url].
  - split; [discriminate|]. intros [C _]. contradiction.
  - cbn [truthy negb]. rewrite Eb. cbn [rbind].
    destruct (urllib_parse.urlparse (c :: url) _) as [u|e'].
    + cbn [rbind]. split; [|intros [_ C]; discriminate].
      intros E. repeat case_match; discriminate.
    + cbn [rbind]. split.
      * intros E. injection E as ->. split; [discriminate|reflexivity].
      * intros [_ E]. injection E as ->. reflexivity.
Qed.

(** X9. On a page whose URL passed validation, the analysis of a form fails
    exactly when the form has a non-empty [action] that [urlparse] rejects;
    the error logged is the one [urlparse] raised. A form without an
    action, or with an empty one, is always analysed. *)
Theorem analysis_fails_iff_action_unparsable form url b e :
  validate_url url = (Returns true, []) ->
  urllib_parse.urlparse url [] = Ok b ->
  (analyze_form form url = (Returns None, [(ERROR, ErrorAnalyzingForm e)])
   <-> exists a,
         tag_get form (py "action") = Some a /\ a <> []
         /\ urllib_parse.urlparse a (urllib_parse.scheme b) = Err e).
Proof.
  intros Hvalid Eb. rewrite validate_url_unfold, Eb in Hvalid.
  injection Hvalid as Hvalid. apply andb_prop in Hvalid as [Hs _].
  assert (Hs' : urllib_parse.scheme b <> []).
  { intros C. rewrite C in Hs. discriminate. }
  destruct (valid_page_url _ _ Eb Hs') as (Hurl & Habs & _).
  assert (Hbase : truthy url = true)
    by (destruct url; [exfalso; apply Hurl|]; reflexivity).
  rewrite analyze_form_unfold.
  pose proof (urljoin_raises url (form_action_arg form url) b e Hbase Eb)
    as Hj.
  unfold form_action_arg, tag_get_default in *.
  destruct (tag_get form (py "action")) as [a|] eqn:Ea.
  - change (default url (Some a)) with a in *. split.
    + destruct (urllib_parse.urljoin url a) as [r|e'] eqn:Ej;
        [discriminate|].
      intros E. injection E as ->. exists a.
      split; [reflexivity|]. apply Hj. reflexivity.
    + intros (a' & Ea' & Hne & Ee). injection Ea' as <-.
      rewrite (proj2 Hj (conj Hne Ee)). reflexivity.
  - change (default url None) with url in *. split.
    + destruct (urllib_parse.urljoin url url) as [r|e'] eqn:Ej;
        [discriminate|].
      intros E. injection E as ->. exfalso.
      destruct (proj1 Hj eq_refl) as [_ C].
      rewrite (urlparse_default_irrelevant url _ []), Eb in C
        by (apply has_scheme_cleaned, Habs).
      discriminate.
    + intros (a & C & _). discriminate.
Qed.

Lemma remove_unsafe_keeps c s :
  c <> 9%N -> c <> 13%N -> c <> 10%N ->
  urllib_parse.remove_unsafe (c :: s) = c :: urllib_parse.remove_unsafe s.
Proof.
  intros H9 H13 H10. rewrite !remove_unsafe_unfold. unfold remove_char.
  apply N.eqb_neq in H9, H13, H10.
  cbn [List.filter]. rewrite H9. cbn [negb List.filter].
  rewrite H13. cbn [negb List.filter]. rewrite H10. reflexivity.
Qed.

Lemma urlsplit_fragment_only frag d :
  urllib_parse.urlsplit (chr "#" :: frag) d
  = Ok (urllib_parse.mkSplit
          (urllib_parse.remove_unsafe
             (strip urllib_parse._WHATWG_C0_CONTROL_OR_SPACE d))
          [] [] [] (urllib_parse.remove_unsafe frag)).
Proof.
  unfold urllib_parse.urlsplit.
  change (lstrip urllib_parse._WHATWG_C0_CONTROL_OR_SPACE (chr "#" :: frag))
    with (chr "#" :: frag).
  rewrite remove_unsafe_keeps by discriminate.
  assert (urllib_parse.split_scheme
            (chr "#" :: urllib_parse.remove_unsafe frag) = None) as ->.
  { unfold urllib_parse.split_scheme.
    destruct (find _ _) as [i|]; [|reflexivity].
    destruct (Nat.ltb 0 i); reflexivity. }
  assert (str_eqb (take 2 (chr "#" :: urllib_parse.remove_unsafe frag))
            (py "//") = false) as ->.
  { apply bool_decide_eq_false_2. discriminate. }
  generalize (urllib_parse.remove_unsafe frag).
  generalize (urllib_parse.remove_unsafe
                (strip urllib_parse._WHATWG_C0_CONTROL_OR_SPACE d)).
  intros sd rf. vm_compute. reflexivity.
Qed.

Lemma urlparse_fragment_only frag d :
  urllib_parse.urlparse (chr "#" :: frag) d
  = Ok (urllib_parse.mkParse
          (urllib_parse.remove_unsafe
             (strip urllib_parse._WHATWG_C0_CONTROL_OR_SPACE d))
          [] [] [] [] (urllib_parse.remove_unsafe frag)).
Proof.
  unfold urllib_parse.urlparse. rewrite urlsplit_fragment_only.
  cbn [rbind urllib_parse.s_scheme urllib_parse.s_netloc urllib_parse.s_path
       urllib_parse.s_query urllib_parse.s_fragment].
  change (contains (chr ";") []) with false.
  rewrite andb_false_r. reflexivity.
Qed.

(** X10. An action that is a bare fragment ([#], [#top], ...) resolves to the
    page URL with its fragment replaced: scheme, host, path, parameters
    and query are the page's. This holds on every valid page whose scheme
    supports relative references, as http and https do. *)
Theorem fragment_action_keeps_page form url b frag :
  validate_url url = (Returns true, []) ->
  urllib_parse.urlparse url [] = Ok b ->
  urllib_parse.str_in (urllib_parse.scheme b) urllib_parse.uses_relative
  = true ->
  tag_get form (py "action") = Some (chr "#" :: frag) ->
  analyze_form form url =
  (Returns (Some (form_result form
     (urllib_parse.urlunparse
        (urllib_parse.mkParse (urllib_parse.scheme b) (urllib_parse.netloc b)
           (urllib_parse.path b) (urllib_parse.params b)
           (urllib_parse.query b) (urllib_parse.remove_unsafe frag))))), []).
Proof.
  intros Hvalid Eb Hrel Ea. rewrite validate_url_unfold, Eb in Hvalid.
  injection Hvalid as Hvalid. apply andb_prop in Hvalid as [Hs _].
  assert (Hs' : urllib_parse.scheme b <> []).
  { intros C. rewrite C in Hs. discriminate. }
  destruct (valid_page_url _ _ Eb Hs') as (Hurl & _ & Hparsed).
  assert (Hbase : truthy url = true)
    by (destruct url; [exfalso; apply Hurl|]; reflexivity).
  rewrite analyze_form_unfold. unfold form_action_arg, tag_get_default.
  rewrite Ea. change (default url (Some (chr "#" :: frag)))
    with (chr "#" :: frag).
  unfold urllib_parse.urljoin. rewrite Hbase, Eb. cbn [truthy negb rbind].
  rewrite urlparse_fragment_only, (strip_parsed_scheme _ Hparsed).
  cbn [rbind urllib_parse.scheme urllib_parse.netloc urllib_parse.path
       urllib_parse.params urllib_parse.query urllib_parse.fragment truthy
       negb andb].
  assert (str_eqb (urllib_parse.scheme b) (urllib_parse.scheme b) = true)
    as -> by (apply str_eqb_eq; reflexivity).
  rewrite Hrel, (uses_relative_netloc _ Hrel). reflexivity.
Qed.

End action.

(** ** Which strings pass validation *)

Section validation.
Context `{Runtime}.

Lemma find_from_Some c (s : pystr) i j :
  find_from c s i = Some j ->
  exists k, j = (i + k)%nat /\ s = take k s ++ c :: drop (S k) s.
Proof.
  revert i. induction s as [|x s IH]; intros i; [discriminate|].
  cbn [find_from]. destruct (N.eqb_spec x c) as [->|Hne].
  - intros E. injection E as <-. exists 0%nat. split; [lia|reflexivity].
  - intros E. apply IH in E as (k & -> & Es). exists (S k).
    split; [lia|]. cbn [take drop app]. f_equal. exact Es.
Qed.

Lemma split_scheme_shape u sch rest :
  urllib_parse.split_scheme u = Some (sch, rest) ->
  exists s, u = s ++ chr ":" :: rest /\ sch = ascii_lower <$> s.
Proof.
  unfold urllib_parse.split_scheme, find.
  destruct (find_from (chr ":") u 0) as [i|] eqn:Ef; [|discriminate].
  destruct (_ && _); [|discriminate].
  intros E. injection E as <- <-.
  apply find_from_Some in Ef as (k & -> & Eu). cbn [Nat.add].
  exists (take k u). split; [exact Eu|reflexivity].
Qed.

Lemma urlparse_netloc url d r :
  urllib_parse.urlparse url d = Ok r ->
  urllib_parse.netloc r =
  let rest :=
    match urllib_parse.split_scheme (cleaned url) with
    | Some (_, rest) => rest
    | None => cleaned url
    end in
  if str_eqb (take 2 rest) (py "//")
  then fst (urllib_parse._splitnetloc rest 2) else [].
Proof.
  unfold urllib_parse.urlparse, urllib_parse.urlsplit, rbind, cleaned.
  intros E. cbn zeta. repeat case_match; simplify_eq;
    cbn [urllib_parse.netloc urllib_parse.s_netloc];
    repeat match goal with
           | E : urllib_parse._splitnetloc _ _ = _ |- _ => rewrite E
           end; first [reflexivity | congruence].
Qed.

Lemma lstrip_suffix chars (s : pystr) c :
  In c (lstrip chars s) -> In c s.
Proof.
  induction s as [|x s IH]; [intros []|].
  cbn [lstrip]. destruct (contains x chars); [|exact id].
  intros Hin. right. apply IH, Hin.
Qed.

Lemma cleaned_incl url c : In c (cleaned url) -> In c url.
Proof.
  unfold cleaned. rewrite remove_unsafe_unfold. unfold remove_char.
  intros Hin. apply filter_In in Hin as [Hin _].
  apply filter_In in Hin as [Hin _]. apply filter_In in Hin as [Hin _].
  apply (lstrip_suffix _ _ _ Hin).
Qed.

(** X11. A string that passes validation has, once leading blanks and control
    characters are stripped and tabs and line breaks removed, the form
    [scheme://rest] with a scheme that starts with a letter and with
    something after the two slashes. *)
Theorem valid_url_shape url :
  validate_url url = (Returns true, []) ->
  exists s rest,
    cleaned url = s ++ py "://" ++ rest
    /\ is_parsed_scheme (ascii_lower <$> s) = true
    /\ rest <> [].
Proof.
  rewrite validate_url_unfold.
  destruct (urllib_parse.urlparse url []) as [r|e] eqn:Er; [|discriminate].
  intros E. injection E as E. apply andb_prop in E as [Hs Hn].
  pose proof (urlparse_scheme _ _ _ Er) as Es.
  pose proof (urlparse_netloc _ _ _ Er) as En. cbn zeta in En.
  destruct (urllib_parse.split_scheme (cleaned url)) as [[sch rest0]|] eqn:E0.
  2:{ rewrite Es in Hs. discriminate. }
  pose proof (split_scheme_parsed _ _ _ E0) as Hp.
  apply split_scheme_shape in E0 as (s & Eu & ->).
  destruct (str_eqb (take 2 rest0) (py "//")) eqn:E2.
  2:{ rewrite En in Hn. discriminate. }
  apply str_eqb_eq in E2.
  exists s, (drop 2 rest0). split; [|split; [exact Hp|]].
  - rewrite Eu. f_equal.
    change (py "://" ++ drop 2 rest0)
      with (chr ":" :: (py "//" ++ drop 2 rest0)).
    rewrite <- E2, take_drop. reflexivity.
  - intros Hd. rewrite En in Hn. unfold urllib_parse._splitnetloc in Hn.
    cbn [fst] in Hn.
    assert (Hlen : (length rest0 <= 2)%nat).
    { rewrite <- (take_drop 2 rest0), Hd, app_nil_r, length_take. lia. }
    rewrite drop_ge in Hn; [discriminate|]. rewrite length_take. lia.
Qed.

(** X12. A string without a colon never passes validation. *)
Theorem no_colon_no_valid_url url :
  contains (chr ":") url = false ->
  validate_url url = (Returns false, []).
Proof.
  intros Hc. destruct (validate_url url) as [o l] eqn:Ev.
  pose proof (validate_url_unfold url) as Hu. rewrite Ev in Hu.
  injection Hu as -> ->.
  destruct (match urllib_parse.urlparse url [] with
            | Ok _ => _ | Err _ => _ end) eqn:Eb; [|reflexivity].
  exfalso. destruct (valid_url_shape url Ev) as (s & rest & Eu & _ & _).
  assert (Hin : In (chr ":") (cleaned url)).
  { rewrite Eu. apply in_or_app. right. left. reflexivity. }
  apply cleaned_incl in Hin.
  assert (Hx : contains (chr ":") url = true).
  { apply existsb_exists. exists (chr ":"). split; [exact Hin|].
    apply N.eqb_refl. }
  congruence.
Qed.

Lemma split_scheme_intro s rest :
  is_scheme_text s = true ->
  urllib_parse.split_scheme (s ++ chr ":" :: rest)
  = Some (ascii_lower <$> s, rest).
Proof.
  unfold is_scheme_text. intros Hs. apply andb_prop in Hs as [Hhd Hc].
  unfold urllib_parse.split_scheme, find.
  rewrite (find_from_scheme _ _ _ Hc). cbn [Nat.add].
  rewrite take_app_length.
  replace (drop (S (length s)) (s ++ chr ":" :: rest)) with rest.
  2:{ change (S (length s)) with (1 + length s)%nat.
      rewrite Nat.add_comm, <- drop_drop, drop_app_length. reflexivity. }
  assert (E1 : Nat.ltb 0 (length s) = true).
  { destruct s; [discriminate|]. reflexivity. }
  assert (E2 : match s ++ chr ":" :: rest with
               | c :: _ => is_ascii c && is_ascii_alpha c
               | [] => false
               end = true).
  { destruct s as [|c s]; [discriminate|]. cbn [app]. bool_lia. }
  assert (E3 : forallb (fun c => contains c urllib_parse.scheme_chars) s
               = true).
  { rewrite forallb_forall in *. intros c Hin.
    rewrite scheme_chars_spec. apply Hc, Hin. }
  rewrite E1, E2, E3. reflexivity.
Qed.

Lemma find_from_skip c (host r : pystr) i :
  forallb (fun x => negb (N.eqb x c)) host = true ->
  find_from c (host ++ r) i = find_from c r (i + length host).
Proof.
  revert i. induction host as [|x host IH]; intros i Hh.
  - cbn. rewrite Nat.add_0_r. reflexivity.
  - cbn [forallb] in Hh. apply andb_prop in Hh as [Hx Hh].
    apply negb_true_iff in Hx. cbn [app find_from length]. rewrite Hx.
    rewrite (IH _ Hh). f_equal. lia.
Qed.

Lemma find_from_ge c (r : pystr) i j :
  find_from c r i = Some j -> (i <= j)%nat.
Proof.
  revert i. induction r as [|x r IH]; intros i; [discriminate|].
  cbn [find_from]. destruct (N.eqb x c).
  - intros E. injection E as <-. lia.
  - intros E. apply IH in E. lia.
Qed.

Lemma plain_host_char c :
  is_plain_host_char c = true ->
  is_ascii c = true
  /\ c <> chr "/" /\ c <> chr "?" /\ c <> chr "#"
  /\ c <> chr "[" /\ c <> chr "]"
  /\ c <> 9%N /\ c <> 10%N /\ c <> 13%N.
Proof.
  unfold is_plain_host_char. intros E. apply andb_prop in E as [Ha E].
  apply negb_true_iff in E. split; [exact Ha|].
  repeat split; intros ->; discriminate.
Qed.

Lemma plain_host_lacks host c :
  forallb is_plain_host_char host = true ->
  In c (py "/?#[]") ->
  forallb (fun x => negb (N.eqb x c)) host = true.
Proof.
  intros Hh Hc. rewrite forallb_forall in *. intros x Hx.
  destruct (plain_host_char x (Hh x Hx))
    as (_ & H1 & H2 & H3 & H4 & H5 & _).
  apply negb_true_iff, N.eqb_neq.
  cbn in Hc. destruct Hc as [<-|[<-|[<-|[<-|[<-|[]]]]]]; assumption.
Qed.

Lemma remove_unsafe_plain host rest :
  forallb is_plain_host_char host = true ->
  urllib_parse.remove_unsafe (host ++ rest)
  = host ++ urllib_parse.remove_unsafe rest.
Proof.
  induction host as [|x host IH]; intros Hh; [reflexivity|].
  cbn [forallb] in Hh. apply andb_prop in Hh as [Hx Hh].
  destruct (plain_host_char x Hx) as (_ & _ & _ & _ & _ & _ & H9 & H10 & H13).
  cbn [app]. rewrite remove_unsafe_keeps, (IH Hh) by assumption.
  reflexivity.
Qed.

Lemma starts_path_cleaned rest :
  starts_path rest = true ->
  starts_path (urllib_parse.remove_unsafe rest) = true.
Proof.
  destruct rest as [|c rest]; [reflexivity|]. cbn [starts_path]. intros Hc.
  rewrite remove_unsafe_keeps; [exact Hc|..]; intros ->; discriminate.
Qed.

Lemma splitnetloc_plain host rest :
  forallb is_plain_host_char host = true ->
  starts_path rest = true ->
  urllib_parse._splitnetloc (py "//" ++ host ++ rest) 2 = (host, rest).
Proof.
  intros Hh Hr.
  assert (Hd : fold_left
            (fun delim c =>
               match find_at c (py "//" ++ host ++ rest) 2 with
               | Some wdelim => Nat.min delim wdelim
               | None => delim
               end)
            (py "/?#") (length (py "//" ++ host ++ rest))
          = (2 + length host)%nat).
  { assert (Hf : forall c, In c (py "/?#") ->
              find_at c (py "//" ++ host ++ rest) 2
              = find_from c rest (2 + length host)).
    { intros c Hc. unfold find_at.
      change (drop 2 (py "//" ++ host ++ rest)) with (host ++ rest).
      apply find_from_skip, plain_host_lacks; [exact Hh|].
      cbn in *. intuition. }
    assert (HL : length (py "//" ++ host ++ rest)
                 = (2 + length host + length rest)%nat)
      by (rewrite !length_app; reflexivity).
    change (py "/?#") with [chr "/"; chr "?"; chr "#"] in *.
    cbn [fold_left]. rewrite !Hf, HL by (cbn [In]; auto).
    destruct rest as [|c0 rest]; [cbn [find_from length]; lia|].
    assert (Hc0 : c0 = chr "/" \/ c0 = chr "?" \/ c0 = chr "#").
    { cbn [starts_path] in Hr. apply existsb_exists in Hr as (x & Hx & Ex).
      apply N.eqb_eq in Ex. subst x. cbn [In] in Hx.
      destruct Hx as [<-|[<-|[<-|[]]]]; auto. }
    cbn [length find_from].
    destruct Hc0 as [-> | [-> | ->]];
      repeat match goal with
             | |- context [N.eqb (chr ?a) (chr ?b)] =>
                 let v := eval vm_compute in (N.eqb (chr a) (chr b)) in
                 change (N.eqb (chr a) (chr b)) with v
             end; cbn iota;
      repeat match goal with
             | |- context [find_from ?c rest ?i] =>
                 let E := fresh "E" in
                 destruct (find_from c rest i) eqn:E;
                 [apply find_from_ge in E|]
             end; lia. }
  unfold urllib_parse._splitnetloc. rewrite Hd.
  change (take (2 + length host) (py "//" ++ host ++ rest))
    with (py "//" ++ take (length host) (host ++ rest)).
  change (drop (2 + length host) (py "//" ++ host ++ rest))
    with (drop (length host) (host ++ rest)).
  rewrite take_app_length, drop_app_length. reflexivity.
Qed.

Lemma urlsplit_returns url d :
  let rest :=
    match urllib_parse.split_scheme (cleaned url) with
    | Some (_, rest) => rest
    | None => cleaned url
    end in
  let netloc :=
    if str_eqb (take 2 rest) (py "//")
    then fst (urllib_parse._splitnetloc rest 2) else [] in
  contains (chr "[") netloc = false ->
  contains (chr "]") netloc = false ->
  isascii netloc = true ->
  exists r, urllib_parse.urlsplit url d = Ok r.
Proof.
  unfold urllib_parse.urlsplit, cleaned. cbn zeta.
  destruct (urllib_parse.split_scheme _) as [[sch rest]|];
    (destruct (str_eqb (take 2 _) (py "//"));
     [destruct (urllib_parse._splitnetloc _ 2) as [n u]; cbn [fst];
      intros -> -> Ha
     |intros _ _ _]);
    cbn [andb orb negb rbind];
    repeat match goal with
           | |- context [if ?b then _ else _] => destruct b
           | |- context [split_once ?c ?u] => destruct (split_once c u)
           end;
    unfold urllib_parse._checknetloc; try rewrite Ha;
    try rewrite orb_true_r; cbn [rbind truthy negb orb];
    eexists; reflexivity.
Qed.

Lemma urlparse_returns url d :
  let rest :=
    match urllib_parse.split_scheme (cleaned url) with
    | Some (_, rest) => rest
    | None => cleaned url
    end in
  let netloc :=
    if str_eqb (take 2 rest) (py "//")
    then fst (urllib_parse._splitnetloc rest 2) else [] in
  contains (chr "[") netloc = false ->
  contains (chr "]") netloc = false ->
  isascii netloc = true ->
  exists r, urllib_parse.urlparse url d = Ok r.
Proof.
  intros rest netloc H1 H2 H3.
  destruct (urlsplit_returns url d H1 H2 H3) as (r & Er).
  unfold urllib_parse.urlparse. rewrite Er. cbn [rbind].
  match goal with
  | |- context [let '(_, _) := ?c in _] => destruct c as [u p]
  end. eexists. reflexivity.
Qed.

(** X13. Every string of the form [scheme://authority] followed by nothing or
    by a path, query or fragment passes validation, when the scheme is
    written with a letter first and the authority is a non-empty run of
    ASCII characters without delimiters, brackets, tabs or line breaks. *)
Theorem ordinary_url_is_valid s host rest :
  is_scheme_text s = true ->
  host <> [] ->
  forallb is_plain_host_char host = true ->
  starts_path rest = true ->
  validate_url (s ++ py "://" ++ host ++ rest) = (Returns true, []).
Proof.
  intros Hs Hne Hh Hr.
  set (url := s ++ py "://" ++ host ++ rest).
  assert (Ec : cleaned url
               = s ++ chr ":" :: (py "//" ++ host
                                  ++ urllib_parse.remove_unsafe rest)).
  { unfold cleaned, url. pose proof Hs as Hs'.
    unfold is_scheme_text in Hs'. apply andb_prop in Hs' as [Hhd Hc].
    rewrite lstrip_id.
    2:{ destruct s as [|c s]; [discriminate|]. cbn [app].
        cbn [forallb] in Hc. apply andb_prop in Hc as [Hc _].
        apply scheme_char_not_C0, Hc. }
    change (s ++ py "://" ++ host ++ rest)
      with (s ++ chr ":" :: (chr "/" :: chr "/" :: host ++ rest)).
    rewrite (remove_unsafe_scheme _ _ Hc).
    rewrite !remove_unsafe_keeps by discriminate.
    rewrite (remove_unsafe_plain _ _ Hh). reflexivity. }
  pose proof (split_scheme_intro s
                (py "//" ++ host ++ urllib_parse.remove_unsafe rest) Hs)
    as Esch. rewrite <- Ec in Esch.
  pose proof (splitnetloc_plain host (urllib_parse.remove_unsafe rest) Hh
                (starts_path_cleaned _ Hr)) as Enet.
  assert (E2 : str_eqb
                 (take 2 (py "//" ++ host ++ urllib_parse.remove_unsafe rest))
                 (py "//") = true) by (apply str_eqb_eq; reflexivity).
  destruct (urlparse_returns url []) as (r & Er).
  - cbn zeta. rewrite Esch, E2, Enet. cbn [fst].
    apply not_true_is_false. intros C. apply existsb_exists in C
      as (x & Hx & Ex). apply N.eqb_eq in Ex. subst x.
    rewrite forallb_forall in Hh.
    destruct (plain_host_char _ (Hh _ Hx)) as (_ & _ & _ & _ & C & _).
    apply C. reflexivity.
  - cbn zeta. rewrite Esch, E2, Enet. cbn [fst].
    apply not_true_is_false. intros C. apply existsb_exists in C
      as (x & Hx & Ex). apply N.eqb_eq in Ex. subst x.
    rewrite forallb_forall in Hh.
    destruct (plain_host_char _ (Hh _ Hx)) as (_ & _ & _ & _ & _ & C & _).
    apply C. reflexivity.
  - cbn zeta. rewrite Esch, E2, Enet. cbn [fst].
    unfold isascii. rewrite forallb_forall in *. intros x Hx.
    apply (plain_host_char _ (Hh _ Hx)).
  - rewrite validate_url_unfold, Er.
    pose proof (urlparse_scheme _ _ _ Er) as Es. rewrite Esch in Es.
    pose proof (urlparse_netloc _ _ _ Er) as En. cbn zeta in En.
    rewrite Esch, E2, Enet in En. cbn [fst] in En. rewrite Es, En.
    destruct s as [|c s]; [discriminate|].
    destruct host as [|x host]; [contradiction|]. reflexivity.
Qed.

End validation.

(** ** What the heuristic is sensitive to *)

Section heuristic.
Context `{Runtime}.

Lemma ignorecase_match_upper p c :
  is_ascii_lower p = true ->
  re.ignorecase_match p (ascii_upper c) = re.ignorecase_match p c.
Proof.
  intros Hp. unfold re.ignorecase_match, ascii_upper.
  destruct (is_ascii_lower c) eqn:Ec; [|reflexivity].
  change (chr "i") with 105%N. change (chr "s") with 115%N.
  change (chr "k") with 107%N.
  unfold is_ascii_lower in *.
  apply andb_prop in Hp as [Hp1 Hp2]. apply andb_prop in Ec as [Ec1 Ec2].
  apply N.leb_le in Hp1, Hp2, Ec1, Ec2.
  apply Bool.eq_iff_eq_true.
  rewrite !orb_true_iff, !andb_true_iff, !orb_true_iff, !N.eqb_eq. lia.
Qed.

Lemma ignorecase_match_lower p c :
  is_ascii_lower p = true ->
  re.ignorecase_match p (ascii_lower c) = re.ignorecase_match p c.
Proof.
  intros Hp. unfold re.ignorecase_match, ascii_lower.
  destruct (is_ascii_upper c) eqn:Ec; [|reflexivity].
  change (chr "i") with 105%N. change (chr "s") with 115%N.
  change (chr "k") with 107%N.
  unfold is_ascii_lower, is_ascii_upper in *.
  apply andb_prop in Hp as [Hp1 Hp2]. apply andb_prop in Ec as [Ec1 Ec2].
  apply N.leb_le in Hp1, Hp2, Ec1, Ec2.
  apply Bool.eq_iff_eq_true.
  rewrite !orb_true_iff, !andb_true_iff, !orb_true_iff, !N.eqb_eq. lia.
Qed.

Lemma match_here_recased (f : N -> N) pat text :
  (forall p c, is_ascii_lower p = true ->
               re.ignorecase_match p (f c) = re.ignorecase_match p c) ->
  forallb is_ascii_lower pat = true ->
  re.match_here pat (f <$> text) = re.match_here pat text.
Proof.
  intros Hf. revert text. induction pat as [|p pat IH]; intros text Hp;
    [reflexivity|].
  cbn [forallb] in Hp. apply andb_prop in Hp as [Hp Hpat].
  destruct text as [|c text]; [reflexivity|].
  cbn [fmap list_fmap re.match_here]. rewrite (Hf _ _ Hp).
  f_equal. apply IH, Hpat.
Qed.

Lemma alternatives_recased (f : N -> N) text :
  (forall p c, is_ascii_lower p = true ->
               re.ignorecase_match p (f c) = re.ignorecase_match p c) ->
  existsb (fun alt => re.match_here alt (f <$> text)) re.alternatives
  = existsb (fun alt => re.match_here alt text) re.alternatives.
Proof.
  intros Hf. generalize (match_here_recased f). intros Hm.
  assert (Hlow : Forall (fun alt => forallb is_ascii_lower alt = true)
                   re.alternatives) by (repeat constructor).
  induction Hlow as [|alt alts Halt _ IH]; [reflexivity|].
  cbn [existsb]. rewrite IH, (Hm alt text Hf Halt). reflexivity.
Qed.

Lemma search_recased (f : N -> N) text :
  (forall p c, is_ascii_lower p = true ->
               re.ignorecase_match p (f c) = re.ignorecase_match p c) ->
  re.search (f <$> text) = re.search text.
Proof.
  intros Hf. induction text as [|c text IH]; [reflexivity|].
  pose proof (alternatives_recased f (c :: text) Hf) as Ha.
  change (f <$> c :: text) with (f c :: (f <$> text)) in *.
  cbn [re.search]. rewrite IH, Ha. reflexivity.
Qed.

(** X14. The pattern does not see the case of ASCII letters: a name matches
    exactly when its upper-cased form does, and exactly when its
    lower-cased form does. *)
Theorem pattern_ignores_ascii_case name :
  re.search (ascii_upper <$> name) = re.search name
  /\ re.search (ascii_lower <$> name) = re.search name.
Proof.
  split; apply search_recased; intros p c Hp.
  - apply ignorecase_match_upper, Hp.
  - apply ignorecase_match_lower, Hp.
Qed.

(** X15. The pattern is searched for, not matched against the whole name: a
    name that contains a matching name matches as well. *)
Theorem pattern_matches_inside pre name post :
  re.search name = true -> re.search (pre ++ name ++ post) = true.
Proof.
  rewrite !search_spec. intros (kw & Hkw & pre' & mid & post' & -> & F).
  exists kw. split; [exact Hkw|].
  exists (pre ++ pre'), mid, (post' ++ post). split; [|exact F].
  rewrite <- !app_assoc. reflexivity.
Qed.

(** X16. The [type] of an input is compared exactly: when no input of a form
    has the type ["hidden"], spelled in lower case, the analysis finds no
    token field, whatever the inputs are called. *)
Theorem type_must_be_exactly_hidden form url r l :
  analyze_form form url = (Returns (Some r), l) ->
  (forall inp, inp ∈ find_all form (py "input") ->
               tag_get inp (py "type") <> Some (py "hidden")) ->
  has_csrf_token r = false /\ token_name r = None.
Proof.
  intros E Hty. apply analyze_form_Some in E as (a & _ & -> & _).
  unfold form_result; cbn [has_csrf_token token_name].
  assert (scan_inputs (find_all form (py "input")) = None) as ->.
  { apply scan_inputs_none. intros inp Hin. unfold looks_like_token.
    rewrite bool_decide_eq_false_2 by (apply Hty, Hin). reflexivity. }
  split; [|reflexivity].
  apply bool_decide_eq_false_2. intros C. apply C. reflexivity.
Qed.

End heuristic.

(** ** A failed fetch *)

Section failed_fetch.
Context `{Runtime}.

(** X17. Whenever [get_forms] logs an error (the request failed, the status
    was an error status, or the body could not be parsed), the run goes on
    as for a page without forms: the error is followed by the notice that
    no forms were found, and the exit status is 0. *)
Theorem failed_fetch_reported_as_no_forms args forms l :
  validate_url (arg_url args) = (Returns true, []) ->
  get_forms (arg_url args) = (Returns forms, l) ->
  l <> [] ->
  main args =
  (Exits 0,
   (INFO, AnalyzingURL (arg_url args)) :: l ++ [(INFO, NoFormsFound)])
  /\ Forall (fun r => fst r = ERROR) l.
Proof.
  intros Hv Eg Hl. rewrite (main_valid _ _ _ Hv Eg).
  destruct (get_forms_log _ _ _ Eg) as [-> | [-> (e & [-> | ->])]];
    [contradiction|..]; split; try reflexivity; repeat constructor.
Qed.

End failed_fetch.

(** ** The further properties at work *)

(** The login page has three forms; they are announced as 1, 2 and 3. *)
Lemma forms_numbered_from_one_witness :
  announced_forms
    (snd (@main Examples.runtime (mkArgs Examples.page_url false)))
  = [1; 2; 3]%nat.
Proof.
  refine (@forms_numbered_from_one Examples.runtime
            (mkArgs Examples.page_url false)
            [Examples.login_form; Examples.broken_form; Examples.search_form]
            [] _ _); vm_compute; reflexivity.
Defined.

(** Of the three forms of the login page one has a token, one cannot be
    analysed and one is reported as potentially vulnerable. *)
Lemma one_verdict_per_form_witness :
  count_records is_vulnerability_warning
    (snd (@main Examples.runtime (mkArgs Examples.page_url false)))
  = 1%nat
  /\ count_records is_failure_report
       (snd (@main Examples.runtime (mkArgs Examples.page_url false)))
     = 1%nat
  /\ count_records is_token_report
       (snd (@main Examples.runtime (mkArgs Examples.page_url false)))
     = 1%nat.
Proof.
  destruct (@one_verdict_per_form Examples.runtime
              (mkArgs Examples.page_url false)
              [Examples.login_form; Examples.broken_form;
               Examples.search_form] [])
    as (E1 & E2 & E3 & _); [vm_compute; reflexivity..|].
  rewrite E1, E2, E3. vm_compute. repeat split.
Defined.

(** The outer form has no token field of its own, yet it is reported as
    having one, because the form nested in it has. *)
Lemma nested_token_counts_for_enclosing_form_witness :
  has_csrf_token
    (@form_result Examples.runtime MoreExamples.outer_form
       (py "https://a.com/outer")) = true.
Proof.
  refine (@nested_token_counts_for_enclosing_form Examples.runtime
            MoreExamples.outer_form MoreExamples.inner_form
            Examples.page_url Examples.page_url _
            (@form_result Examples.runtime MoreExamples.inner_form
               (py "https://a.com/inner")) [] [] _ _ _ _).
  - apply (list_elem_of_lookup_2 _ 2%nat). vm_compute. reflexivity.
  - vm_compute. reflexivity.
  - vm_compute. reflexivity.
  - vm_compute. reflexivity.
Defined.

(** The broken form fails because its action has an unclosed bracket. *)
Lemma analysis_fails_iff_action_unparsable_witness :
  @analyze_form Examples.runtime Examples.broken_form Examples.page_url
  = (Returns None,
     [(ERROR, ErrorAnalyzingForm (mkExn ValueError "Invalid IPv6 URL"))]).
Proof.
  refine (proj2 (@analysis_fails_iff_action_unparsable Examples.runtime
                   Examples.broken_form Examples.page_url
                   (urllib_parse.mkParse (py "https") (py "a.com")
                      (py "/login") [] [] [])
                   (mkExn ValueError "Invalid IPv6 URL") _ _) _).
  - vm_compute. reflexivity.
  - vm_compute. reflexivity.
  - exists (py "http://["). split; [vm_compute; reflexivity|].
    split; [discriminate|]. vm_compute. reflexivity.
Defined.

(** On the login page the action [#top] resolves to the page URL followed
    by that fragment. *)
Lemma fragment_action_keeps_page_witness :
  @analyze_form Examples.runtime (Examples.form_with_action "#top")
    Examples.page_url
  = (Returns (Some (@form_result Examples.runtime
                      (Examples.form_with_action "#top")
                      (py "https://a.com/login#top"))), []).
Proof.
  refine (@fragment_action_keeps_page Examples.runtime
            (Examples.form_with_action "#top") Examples.page_url
            (urllib_parse.mkParse (py "https") (py "a.com")
               (py "/login") [] [] [])
            (py "top") _ _ _ _); vm_compute; reflexivity.
Defined.

(** The login page URL is valid, so it has the shape the theorem gives. *)
Lemma valid_url_shape_witness :
  exists s rest,
    cleaned Examples.page_url = s ++ py "://" ++ rest
    /\ is_parsed_scheme (ascii_lower <$> s) = true
    /\ rest <> [].
Proof.
  apply (@valid_url_shape Examples.runtime Examples.page_url).
  vm_compute. reflexivity.
Defined.

(** A bare host name has no colon and is rejected. *)
Lemma no_colon_no_valid_url_witness :
  @validate_url Examples.runtime (py "www.example.com/login")
  = (Returns false, []).
Proof.
  apply (@no_colon_no_valid_url Examples.runtime). vm_compute. reflexivity.
Defined.

(** A URL with credentials, a port, a path and a query is accepted. *)
Lemma ordinary_url_is_valid_witness :
  @validate_url Examples.runtime
    (py "HTTPS" ++ py "://" ++ py "user:secret@a.com:8443"
        ++ py "/login?next=/home")
  = (Returns true, []).
Proof.
  apply (@ordinary_url_is_valid Examples.runtime);
    [vm_compute; reflexivity | discriminate | vm_compute; reflexivity
    | vm_compute; reflexivity].
Defined.

(** The field name of a well-known framework contains "token". *)
Lemma pattern_matches_inside_witness :
  re.search (py "__RequestVerification" ++ py "Token" ++ py "") = true.
Proof.
  apply pattern_matches_inside. vm_compute. reflexivity.
Defined.

(** An input of type HIDDEN is not looked at, whatever its name. *)
Lemma type_must_be_exactly_hidden_witness :
  has_csrf_token
    (@form_result Examples.runtime MoreExamples.shouting_form
       Examples.page_url) = false
  /\ token_name
       (@form_result Examples.runtime MoreExamples.shouting_form
          Examples.page_url) = None.
Proof.
  apply (@type_must_be_exactly_hidden Examples.runtime
           MoreExamples.shouting_form Examples.page_url _ []).
  - vm_compute. reflexivity.
  - intros inp Hin. apply list_elem_of_In in Hin. vm_compute in Hin.
    destruct Hin as [<-|[]]. vm_compute. discriminate.
Defined.

(** A page that answers 404 is reported like a page without forms. *)
Lemma failed_fetch_reported_as_no_forms_witness :
  @main Examples.runtime (mkArgs (py "https://a.com/missing") false)
  = (Exits 0,
     [(INFO, AnalyzingURL (py "https://a.com/missing"));
      (ERROR, ErrorFetchingURL (mkExn HTTPError "Client Error"));
      (INFO, NoFormsFound)]).
Proof.
  refine (proj1 (@failed_fetch_reported_as_no_forms Examples.runtime
                   (mkArgs (py "https://a.com/missing") false) []
                   [(ERROR, ErrorFetchingURL (mkExn HTTPError "Client Error"))]
                   _ _ _)); [vm_compute; reflexivity.. | discriminate].
Defined.

(** * Validation, by the text of the URL *)

Section validation_by_text.
Context `{Runtime}.

Lemma contains_C0_blank c :
  contains c urllib_parse._WHATWG_C0_CONTROL_OR_SPACE = is_blank c.
Proof.
  unfold is_blank. destruct (N.leb_spec c 32) as [Hle|Hgt].
  - apply existsb_exists. exists c. split; [|apply N.eqb_refl].
    apply in_map_iff. exists (N.to_nat c). split; [lia|].
    apply in_seq. lia.
  - apply not_true_is_false. intros C. apply contains_C0 in C. lia.
Qed.

Lemma lstrip_blank url :
  lstrip urllib_parse._WHATWG_C0_CONTROL_OR_SPACE url = drop_while is_blank url.
Proof.
  induction url as [|x url IH]; [reflexivity|].
  cbn [lstrip drop_while]. rewrite contains_C0_blank, IH. reflexivity.
Qed.

Lemma remove_unsafe_filter s :
  urllib_parse.remove_unsafe s
  = List.filter (fun c => negb (is_tab_or_line_break c)) s.
Proof.
  rewrite remove_unsafe_unfold. unfold remove_char, is_tab_or_line_break.
  induction s as [|x s IH]; [reflexivity|].
  cbn [List.filter].
  destruct (N.eqb x 9) eqn:E9; cbn [negb orb List.filter]; [exact IH|].
  destruct (N.eqb x 13) eqn:E13; cbn [negb orb List.filter].
  - rewrite orb_true_r. exact IH.
  - destruct (N.eqb x 10) eqn:E10; cbn [negb orb List.filter];
      [exact IH|rewrite IH; reflexivity].
Qed.

Lemma cleaned_text url : cleaned url = url_text url.
Proof.
  unfold cleaned, url_text. rewrite lstrip_blank. apply remove_unsafe_filter.
Qed.

Lemma split_scheme_text u sch rest :
  urllib_parse.split_scheme u = Some (sch, rest) ->
  exists s, u = s ++ chr ":" :: rest
            /\ sch = ascii_lower <$> s
            /\ is_scheme_text s = true.
Proof.
  unfold urllib_parse.split_scheme, find.
  destruct (find_from (chr ":") u 0) as [i|] eqn:Ef; [|discriminate].
  destruct (Nat.ltb 0 i) eqn:Ei; [|discriminate].
  destruct u as [|c u]; [discriminate|].
  destruct (is_ascii c && is_ascii_alpha c) eqn:Ec; [|discriminate].
  destruct (forallb _ _) eqn:Efa; [|discriminate].
  cbn [andb]. intros E. injection E as <- <-.
  apply find_from_Some in Ef as (k & -> & Eu). cbn [Nat.add] in *.
  exists (take k (c :: u)). split; [exact Eu|]. split; [reflexivity|].
  apply Nat.ltb_lt in Ei. destruct k as [|k]; [lia|].
  unfold is_scheme_text. cbn [take]. apply andb_prop in Ec as [_ ->].
  cbn [andb]. rewrite forallb_forall in *. intros x Hx.
  rewrite <- scheme_chars_spec. apply Efa, Hx.
Qed.


Lemma no_scheme_text url :
  urllib_parse.split_scheme (cleaned url) = None <-> ~ has_url_scheme url.
Proof.
  unfold has_url_scheme. rewrite <- cleaned_text. split.
  - intros Hn (s & rest & E & Hs).
    rewrite E, (split_scheme_intro s rest Hs) in Hn. discriminate.
  - intros Hn.
    destruct (urllib_parse.split_scheme (cleaned url)) as [[sch rest]|] eqn:E;
      [|reflexivity].
    exfalso. apply Hn. apply split_scheme_text in E as (s & E & _ & Hs).
    eauto.
Qed.













End validation_by_text.


(** * The action, resolved against the page URL *)

Section action_resolution.
Context `{Runtime}.

Lemma filter_all {A} (f : A -> bool) (l : list A) :
  forallb f l = true -> List.filter f l = l.
Proof.
  induction l as [|x l IH]; [reflexivity|].
  cbn [forallb List.filter]. intros E. apply andb_prop in E as [-> E].
  rewrite (IH E). reflexivity.
Qed.

Lemma parsed_scheme_text s :
  is_parsed_scheme s = true ->
  is_scheme_text s = true /\ ascii_lower <$> s = s.
Proof.
  unfold is_parsed_scheme, is_scheme_text. intros E.
  apply andb_prop in E as [Hhd Hall]. split.
  - apply andb_true_intro. split.
    + destruct s as [|c s]; [discriminate|]. unfold is_ascii_alpha.
      rewrite Hhd. apply orb_true_r.
    + rewrite forallb_forall in *. intros x Hx.
      specialize (Hall x Hx). apply andb_prop in Hall as [Hall _]. exact Hall.
  - clear Hhd. induction s as [|c s IH]; [reflexivity|].
    cbn [forallb] in Hall. apply andb_prop in Hall as [Hc Hall].
    cbn [fmap list_fmap]. f_equal; [|apply IH, Hall].
    apply andb_prop in Hc as [_ Hc]. apply negb_true_iff in Hc.
    unfold ascii_lower. rewrite Hc. reflexivity.
Qed.

Lemma simple_path_lacks p c :
  is_simple_path p = true -> In c (py "?#;") -> contains c p = false.
Proof.
  unfold is_simple_path. intros E Hc. apply andb_prop in E as [_ E].
  apply not_true_is_false. intros C.
  apply existsb_exists in C as (x & Hx & Ex). apply N.eqb_eq in Ex. subst x.
  rewrite forallb_forall in E. specialize (E _ Hx).
  apply andb_prop in E as [E _]. apply negb_true_iff in E.
  assert (C : contains c (py "?#;") = true)
    by (apply existsb_exists; exists c; split; [exact Hc|apply N.eqb_refl]).
  congruence.
Qed.

Lemma simple_path_starts p :
  is_simple_path p = true -> starts_path p = true.
Proof.
  unfold is_simple_path. intros E. apply andb_prop in E as [E _].
  destruct p as [|c p]; [reflexivity|]. apply N.eqb_eq in E. subst c.
  reflexivity.
Qed.

Lemma simple_path_clean p :
  is_simple_path p = true -> urllib_parse.remove_unsafe p = p.
Proof.
  unfold is_simple_path. intros E. apply andb_prop in E as [_ E].
  rewrite remove_unsafe_filter. apply filter_all.
  rewrite forallb_forall in *. intros x Hx. specialize (E x Hx).
  apply andb_prop in E as [_ E]. exact E.
Qed.

(** What [urlparse] makes of an ordinary absolute URL. *)
Lemma urlparse_ordinary s host p d :
  is_parsed_scheme s = true ->
  forallb is_plain_host_char host = true ->
  is_simple_path p = true ->
  urllib_parse.urlparse (s ++ py "://" ++ host ++ p) d
  = Ok (urllib_parse.mkParse s host p [] [] []).
Proof.
  intros Hs Hh Hp.
  destruct (parsed_scheme_text s Hs) as [Hst Hlow].
  set (url := s ++ py "://" ++ host ++ p).
  assert (Ec : cleaned url = s ++ chr ":" :: (py "//" ++ host ++ p)).
  { unfold cleaned, url. pose proof Hst as Hs'.
    unfold is_scheme_text in Hs'. apply andb_prop in Hs' as [Hhd Hc].
    rewrite lstrip_id.
    2:{ destruct s as [|c s]; [discriminate|]. cbn [app].
        cbn [forallb] in Hc. apply andb_prop in Hc as [Hc _].
        apply scheme_char_not_C0, Hc. }
    change (s ++ py "://" ++ host ++ p)
      with (s ++ chr ":" :: (chr "/" :: chr "/" :: host ++ p)).
    rewrite (remove_unsafe_scheme _ _ Hc).
    rewrite !remove_unsafe_keeps by discriminate.
    rewrite (remove_unsafe_plain _ _ Hh), (simple_path_clean _ Hp).
    reflexivity. }
  pose proof (split_scheme_intro s (py "//" ++ host ++ p) Hst) as Esch.
  rewrite <- Ec, Hlow in Esch.
  pose proof (splitnetloc_plain host p Hh (simple_path_starts _ Hp)) as Enet.
  assert (Hlacks : forall c, In c (py "[]") -> contains c host = false).
  { intros c Hc. apply not_true_is_false. intros C.
    apply existsb_exists in C as (x & Hx & Ex). apply N.eqb_eq in Ex.
    subst x. rewrite forallb_forall in Hh.
    destruct (plain_host_char _ (Hh _ Hx)) as (_ & _ & _ & _ & H1 & H2 & _).
    cbn [In] in Hc. destruct Hc as [<-|[<-|[]]]; contradiction. }
  assert (Hascii : isascii host = true).
  { unfold isascii. rewrite forallb_forall in *. intros x Hx.
    apply (plain_host_char _ (Hh _ Hx)). }
  unfold urllib_parse.urlparse, urllib_parse.urlsplit.
  change (urllib_parse.remove_unsafe
            (lstrip urllib_parse._WHATWG_C0_CONTROL_OR_SPACE url))
    with (cleaned url).
  cbn zeta. rewrite Esch.
  assert (E2 : str_eqb (take 2 (py "//" ++ host ++ p)) (py "//") = true)
    by (apply str_eqb_eq; reflexivity).
  rewrite E2, Enet, !Hlacks by (cbn; auto).
  cbn [andb orb negb rbind].
  rewrite !(simple_path_lacks p) by (assumption || (cbn; auto)).
  unfold urllib_parse._checknetloc. rewrite Hascii, orb_true_r.
  cbn [rbind urllib_parse.s_scheme urllib_parse.s_path urllib_parse.s_netloc
         urllib_parse.s_query urllib_parse.s_fragment].
  rewrite (simple_path_lacks p (chr ";") Hp) by (cbn; auto).
  rewrite andb_false_r. reflexivity.
Qed.

Lemma urlunparse_ordinary s host p :
  s <> [] -> host <> [] -> is_simple_path p = true ->
  urllib_parse.urlunparse (urllib_parse.mkParse s host p [] [] [])
  = s ++ py "://" ++ host ++ p.
Proof.
  intros Hs Hh Hp. unfold urllib_parse.urlunparse, urllib_parse.urlunsplit.
  cbn [urllib_parse.params urllib_parse.path urllib_parse.scheme
         urllib_parse.netloc urllib_parse.query urllib_parse.fragment truthy].
  destruct s as [|c s]; [contradiction|].
  destruct host as [|h host]; [contradiction|].
  cbn [truthy orb].
  assert (truthy p && negb (str_eqb (take 1 p) (py "/")) = false) as ->.
  { unfold is_simple_path in Hp. apply andb_prop in Hp as [Hp _].
    destruct p as [|x p]; [reflexivity|]. apply N.eqb_eq in Hp. subst x.
    reflexivity. }
  reflexivity.
Qed.

(** An ordinary absolute URL is joined to any base unchanged. *)
Lemma urljoin_ordinary base b s host p :
  urllib_parse.urlparse base [] = Ok b ->
  truthy base = true ->
  is_parsed_scheme s = true ->
  host <> [] ->
  forallb is_plain_host_char host = true ->
  is_simple_path p = true ->
  urllib_parse.urljoin base (s ++ py "://" ++ host ++ p)
  = Ok (s ++ py "://" ++ host ++ p).
Proof.
  intros Eb Hbase Hs Hne Hh Hp.
  assert (Hs' : s <> []) by (intros ->; discriminate).
  unfold urllib_parse.urljoin. rewrite Hbase, Eb.
  assert (truthy (s ++ py "://" ++ host ++ p) = true) as ->
    by (destruct s; [contradiction|reflexivity]).
  cbn [negb rbind]. rewrite (urlparse_ordinary s host p _ Hs Hh Hp).
  cbn [rbind urllib_parse.scheme urllib_parse.netloc].
  destruct (str_eqb s (urllib_parse.scheme b)); [|reflexivity].
  destruct (urllib_parse.str_in s urllib_parse.uses_relative) eqn:Er;
    [|reflexivity].
  cbn [negb orb]. rewrite (uses_relative_netloc _ Er).
  destruct host as [|h host]; [contradiction|]. cbn [truthy].
  rewrite (urlunparse_ordinary s (h :: host) p Hs' Hne Hp). reflexivity.
Qed.


Lemma urlparse_empty_netloc d u :
  urllib_parse.urlparse [] d = Ok u -> urllib_parse.netloc u = [].
Proof. intros E. apply urlparse_netloc in E. exact E. Qed.

(** C2 (as the code has it). For a page URL that passes validation and
    parses to [b], the action of every result is what [urljoin] makes of
    the page URL and the [action] attribute, or of the page URL twice when
    there is no such attribute.  An empty action gives the page URL
    itself.  A missing action gives the page URL rebuilt from its parsed
    components when its scheme supports relative references, and the page
    URL itself otherwise.  On page https://a.com/login the action /submit
    gives https://a.com/submit.  An action that parses with a scheme other
    than the page's is returned unchanged, and so is every non-empty
    action when the page's scheme does not support relative references.
    An action with the page's scheme, that scheme supporting relative
    references: if it has a network location, it is rebuilt from its own
    parsed components; if it has none, it is resolved against the page and
    keeps the page's network location.  An action, or with no action
    a page URL, written in the ordinary form of a lower-case scheme,
    [://], a plain host and a path without [;], [?] or [#], is returned
    unchanged.  When the page's scheme supports relative references, the
    action of every result has a scheme. *)
Theorem C2_action_resolution form url b :
  validate_url url = (Returns true, []) ->
  urllib_parse.urlparse url [] = Ok b ->
  (forall r l,
      analyze_form form url = (Returns (Some r), l) ->
      urllib_parse.urljoin url (form_action_arg form url) = Ok (action r))
  /\ (tag_get form (py "action") = Some [] ->
      analyze_form form url = (Returns (Some (form_result form url)), []))
  /\ (tag_get form (py "action") = None ->
      analyze_form form url =
      (Returns (Some (form_result form
         (if urllib_parse.str_in (urllib_parse.scheme b)
               urllib_parse.uses_relative
          then urllib_parse.urlunparse b else url))), []))
  /\ (url = py "https://a.com/login" ->
      tag_get form (py "action") = Some (py "/submit") ->
      analyze_form form url =
      (Returns (Some (form_result form (py "https://a.com/submit"))), []))
  /\ (forall a u,
        tag_get form (py "action") = Some a ->
        urllib_parse.urlparse a (urllib_parse.scheme b) = Ok u ->
        urllib_parse.scheme u <> urllib_parse.scheme b ->
        analyze_form form url = (Returns (Some (form_result form a)), []))
  /\ (forall a u,
        tag_get form (py "action") = Some a ->
        a <> [] ->
        urllib_parse.urlparse a (urllib_parse.scheme b) = Ok u ->
        urllib_parse.str_in (urllib_parse.scheme b) urllib_parse.uses_relative
        = false ->
        analyze_form form url = (Returns (Some (form_result form a)), []))
  /\ (forall a u,
        tag_get form (py "action") = Some a ->
        urllib_parse.urlparse a (urllib_parse.scheme b) = Ok u ->
        urllib_parse.scheme u = urllib_parse.scheme b ->
        urllib_parse.str_in (urllib_parse.scheme b) urllib_parse.uses_relative
        = true ->
        (urllib_parse.netloc u <> [] ->
         analyze_form form url =
         (Returns (Some (form_result form (urllib_parse.urlunparse u))), []))
        /\ (urllib_parse.netloc u = [] -> a <> [] ->
            exists pth prm qry,
              analyze_form form url =
              (Returns (Some (form_result form
                 (urllib_parse.urlunparse
                    (urllib_parse.mkParse
                       (urllib_parse.scheme b) (urllib_parse.netloc b)
                       pth prm qry (urllib_parse.fragment u))))), [])))
  /\ (forall s host p,
        is_parsed_scheme s = true ->
        host <> [] ->
        forallb is_plain_host_char host = true ->
        is_simple_path p = true ->
        form_action_arg form url = s ++ py "://" ++ host ++ p ->
        analyze_form form url =
        (Returns (Some (form_result form (s ++ py "://" ++ host ++ p))), []))
  /\ (forall r l,
        urllib_parse.str_in (urllib_parse.scheme b) urllib_parse.uses_relative
        = true ->
        analyze_form form url = (Returns (Some r), l) ->
        has_scheme (action r) = true).
Proof.
  intros Hvalid Eb. rewrite validate_url_unfold, Eb in Hvalid.
  injection Hvalid as Hvalid. apply andb_prop in Hvalid as [Hs Hn].
  assert (Hs' : urllib_parse.scheme b <> []).
  { intros C. rewrite C in Hs. discriminate. }
  destruct (valid_page_url _ _ Eb Hs') as (Hurl & Habs & Hparsed).
  assert (Hbase : truthy url = true)
    by (destruct url; [exfalso; apply Hurl|]; reflexivity).
  assert (Hrefl : forall x : pystr, str_eqb x x = true)
    by (intros x; apply str_eqb_eq; reflexivity).
  rewrite analyze_form_unfold.
  split; [|unfold form_action_arg, tag_get_default; repeat apply conj].
  - intros r l.
    destruct (urllib_parse.urljoin url _) as [a|e]; [|discriminate].
    intros E. injection E as <- _. reflexivity.
  - intros ->. change (default url (Some [])) with (@nil N).
    unfold urllib_parse.urljoin. rewrite Hbase. reflexivity.
  - intros ->. change (default url None) with url.
    unfold urllib_parse.urljoin. rewrite Hbase, Eb. cbn [negb rbind].
    rewrite (urlparse_default_irrelevant url _ []), Eb
      by (apply has_scheme_cleaned, Habs).
    cbn [rbind]. rewrite Hrefl. cbn [negb orb].
    destruct (urllib_parse.str_in (urllib_parse.scheme b)
                urllib_parse.uses_relative) eqn:Er; [|reflexivity].
    cbn [negb]. rewrite (uses_relative_netloc _ Er), Hn. reflexivity.
  - intros -> ->.
    change (default (py "https://a.com/login") (Some (py "/submit")))
      with (py "/submit").
    vm_compute. reflexivity.
  - intros a u -> Eu Hne. change (default url (Some a)) with a.
    destruct a as [|c a].
    + exfalso. apply Hne. rewrite (urlparse_scheme _ _ _ Eu).
      apply (strip_parsed_scheme _ Hparsed).
    + unfold urllib_parse.urljoin. rewrite Hbase, Eb. cbn [truthy negb rbind].
      rewrite Eu. cbn [rbind].
      assert (str_eqb (urllib_parse.scheme u) (urllib_parse.scheme b) = false)
        as ->.
      { destruct (str_eqb _ _) eqn:C; [|reflexivity].
        apply str_eqb_eq in C. contradiction. }
      reflexivity.
  - intros a u -> Ha Eu Hrel. change (default url (Some a)) with a.
    destruct a as [|c a]; [contradiction|].
    unfold urllib_parse.urljoin. rewrite Hbase, Eb. cbn [truthy negb rbind].
    rewrite Eu. cbn [rbind].
    destruct (str_eqb (urllib_parse.scheme u) (urllib_parse.scheme b)) eqn:Es;
      [|reflexivity].
    apply str_eqb_eq in Es. rewrite Es, Hrel. reflexivity.
  - intros a u -> Eu Hsame Hrel. change (default url (Some a)) with a.
    rewrite <- Hsame in Hrel. split.
    + intros Hnet.
      destruct a as [|c a];
        [destruct (Hnet (urlparse_empty_netloc _ _ Eu))|].
      unfold urllib_parse.urljoin. rewrite Hbase, Eb. cbn [truthy negb rbind].
      rewrite Eu. cbn [rbind].
      rewrite Hsame, Hrefl, <- Hsame, Hrel. cbn [negb orb].
      rewrite (uses_relative_netloc _ Hrel).
      destruct (urllib_parse.netloc u); [contradiction|]. reflexivity.
    + intros Hnet Ha. destruct a as [|c a]; [contradiction|].
      unfold urllib_parse.urljoin. rewrite Hbase, Eb. cbn [truthy negb rbind].
      rewrite Eu. cbn [rbind].
      rewrite Hsame, Hrefl, <- Hsame, Hrel. cbn [negb orb].
      rewrite (uses_relative_netloc _ Hrel), Hnet. cbn [truthy].
      rewrite Hsame.
      destruct (negb (truthy (urllib_parse.path u))
                && negb (truthy (urllib_parse.params u)));
        eexists _, _, _; reflexivity.
  - intros s host p Hsch Hne Hh Hp ->.
    rewrite (urljoin_ordinary url b s host p Eb Hbase Hsch Hne Hh Hp).
    reflexivity.
  - intros r l Hrel.
    destruct (urllib_parse.urljoin url _) as [a|e] eqn:Ej; [|discriminate].
    intros E. injection E as <- _. cbn [action form_result].
    apply (urljoin_cases _ _ _ Hbase) in Ej
      as [[_ ->] | (b' & u & Eb' & Eu & Hcase)]; [exact Habs|].
    assert (b' = b) as -> by congruence.
    destruct Hcase as [[Hdiff ->] | (Hsame & _ & p & -> & Hp)].
    + apply has_scheme_cleaned. intros Hnone.
      pose proof (urlparse_scheme _ _ _ Eu) as E. rewrite Hnone in E.
      rewrite (strip_parsed_scheme _ Hparsed) in E.
      destruct Hdiff as [Hdiff|Hdiff]; [contradiction|]. congruence.
    + destruct (urlunparse_shape p) as (rest & ->).
      * rewrite Hp, Hsame. exact Hs.
      * apply has_scheme_intro. rewrite Hp, Hsame. exact Hparsed.
Qed.

End action_resolution.

(** On the login page: an empty action gives the page URL; a form without
    an action gives the page URL, which is written in the ordinary form;
    the absolute action https://b.com/x is returned unchanged; written
    with the scheme in capitals it comes back with its own host and
    path, the scheme in lower case; a [mailto:] action is returned
    unchanged. *)
Lemma C2_action_resolution_witness :
  @validate_url Examples.runtime Examples.page_url = (Returns true, [])
  /\ @urllib_parse.urlparse Examples.runtime Examples.page_url []
     = Ok (urllib_parse.mkParse (py "https") (py "a.com") (py "/login")
             [] [] [])
  /\ @analyze_form Examples.runtime (Examples.form_with_action "")
       Examples.page_url
     = (Returns (Some (@form_result Examples.runtime
                         (Examples.form_with_action "") Examples.page_url)),
        [])
  /\ @analyze_form Examples.runtime Examples.search_form Examples.page_url
     = (Returns (Some (@form_result Examples.runtime Examples.search_form
                         Examples.page_url)), [])
  /\ @analyze_form Examples.runtime
       (Examples.form_with_action "https://b.com/x") Examples.page_url
     = (Returns (Some (@form_result Examples.runtime
                         (Examples.form_with_action "https://b.com/x")
                         (py "https://b.com/x"))), [])
  /\ @analyze_form Examples.runtime
       (Examples.form_with_action "HTTPS://b.com/x") Examples.page_url
     = (Returns (Some (@form_result Examples.runtime
                         (Examples.form_with_action "HTTPS://b.com/x")
                         (py "https://b.com/x"))), [])
  /\ @analyze_form Examples.runtime
       (Examples.form_with_action "mailto:a@b.com") Examples.page_url
     = (Returns (Some (@form_result Examples.runtime
                         (Examples.form_with_action "mailto:a@b.com")
                         (py "mailto:a@b.com"))), []).
Proof.
  assert (Hv : @validate_url Examples.runtime Examples.page_url
               = (Returns true, [])) by (vm_compute; reflexivity).
  assert (Eb : @urllib_parse.urlparse Examples.runtime Examples.page_url []
               = Ok (urllib_parse.mkParse (py "https") (py "a.com")
                       (py "/login") [] [] []))
    by (vm_compute; reflexivity).
  split; [exact Hv|]. split; [exact Eb|].
  repeat apply conj.
  - destruct (@C2_action_resolution Examples.runtime
                (Examples.form_with_action "") _ _ Hv Eb)
      as (_ & Hempty & _).
    apply Hempty. vm_compute. reflexivity.
  - destruct (@C2_action_resolution Examples.runtime
                Examples.search_form _ _ Hv Eb)
      as (_ & _ & _ & _ & _ & _ & _ & Hordinary & _).
    apply (Hordinary (py "https") (py "a.com") (py "/login"));
      solve [reflexivity | discriminate].
  - destruct (@C2_action_resolution Examples.runtime
                (Examples.form_with_action "https://b.com/x") _ _ Hv Eb)
      as (_ & _ & _ & _ & _ & _ & _ & Hordinary & _).
    apply (Hordinary (py "https") (py "b.com") (py "/x"));
      solve [reflexivity | discriminate | vm_compute; reflexivity].
  - destruct (@C2_action_resolution Examples.runtime
                (Examples.form_with_action "HTTPS://b.com/x") _ _ Hv Eb)
      as (_ & _ & _ & _ & _ & _ & Hsame & _).
    refine (proj1 (Hsame (py "HTTPS://b.com/x")
                     (urllib_parse.mkParse (py "https") (py "b.com")
                        (py "/x") [] [] []) _ _ _ _) _);
      solve [reflexivity | discriminate | vm_compute; reflexivity].
  - destruct (@C2_action_resolution Examples.runtime
                (Examples.form_with_action "mailto:a@b.com") _ _ Hv Eb)
      as (_ & _ & _ & _ & Hother & _).
    apply (Hother (py "mailto:a@b.com")
             (urllib_parse.mkParse (py "mailto") [] (py "a@b.com") [] [] []));
      solve [discriminate | vm_compute; reflexivity].
Defined.

(** C2 as stated fails in four ways.  A page URL written with an
    upper-case scheme passes validation, and a form without an action
    resolves to the lower-cased URL, not to the page URL itself.  An
    absolute action written with an upper-case scheme is not returned
    unchanged.  Nor is the absolute action https:/x, which has no network
    location and takes the page's.  And on a valid page whose scheme does
    not support relative references a relative action stays relative. *)
Lemma C2_action_not_as_claimed :
  (@validate_url Examples.runtime (py "HTTPS://a.com/login")
   = (Returns true, [])
   /\ exists r,
        @analyze_form Examples.runtime Examples.search_form
          (py "HTTPS://a.com/login") = (Returns (Some r), [])
        /\ action r = py "https://a.com/login"
        /\ action r <> py "HTTPS://a.com/login")
  /\ (@validate_url Examples.runtime Examples.page_url = (Returns true, [])
      /\ exists r,
           @analyze_form Examples.runtime
             (Examples.form_with_action "HTTPS://b.com/x") Examples.page_url
           = (Returns (Some r), [])
           /\ action r = py "https://b.com/x"
           /\ action r <> py "HTTPS://b.com/x")
  /\ (@validate_url Examples.runtime Examples.page_url = (Returns true, [])
      /\ exists r,
           @analyze_form Examples.runtime
             (Examples.form_with_action "https:/x") Examples.page_url
           = (Returns (Some r), [])
           /\ action r = py "https://a.com/x"
           /\ action r <> py "https:/x")
  /\ (@validate_url Examples.runtime (py "foo://h/p") = (Returns true, [])
      /\ exists r,
           @analyze_form Examples.runtime
             (Examples.form_with_action "/submit") (py "foo://h/p")
           = (Returns (Some r), [])
           /\ action r = py "/submit"
           /\ has_scheme (action r) = false).
Proof.
  repeat split; try (vm_compute; reflexivity);
    (eexists; split; [vm_compute; reflexivity|]);
    split; try (vm_compute; reflexivity); cbn [action]; discriminate.
Qed.
